(** * Icon repair tool: [tools/fix_icons.py]

    A shallow embedding of [fix_icons] and [make_transparent] and the
    properties of the asset normalisation pass stated in the specification.

    The program talks to two collaborators that are not part of the
    repository: the file system ([open], [glob], [os.path.exists],
    [os.remove]) and the imaging library ([Image.open], [Image.load],
    [Image.convert], [Image.putdata], [Image.save]).  The file system is a
    finite map from paths to file contents; the imaging library is a
    [Codec], a pair of functions the development is parametric in.

    What the model takes from the collaborators:
    - reading, writing and removing an existing file succeed; a missing
      file raises;
    - [Image.open] may fail to identify a file, the raster may fail to
      decode when it is first needed, and the PNG encoder may refuse an
      image;
    - [Image.save] writes into the target itself, which it opens for
      writing before the encoder runs;
    - the pattern [**/*.png] selects the paths below the root that end in
      [.png]. *)

From Stdlib Require Import ZArith.
From Stdlib.Strings Require Import Byte.
From stdpp Require Import base gmap strings list.

Local Open Scope Z_scope.

(** ** Pixels and images *)

(** A pixel as [getdata] yields it after [convert("RGBA")]: a 4-tuple. *)
Abbreviation pixel := (Z * Z * Z * Z)%type.

Definition chan0 (p : pixel) : Z := p.1.1.1.
Definition chan1 (p : pixel) : Z := p.1.1.2.
Definition chan2 (p : pixel) : Z := p.1.2.
Definition chan3 (p : pixel) : Z := p.2.

(** Pillow's image modes. *)
Inductive Mode : Set :=
  | M1 | L | LA | P | PA | RGB | RGBA | CMYK | YCbCr | I16 | F32.

Global Instance Mode_eq_dec : EqDecision Mode.
Proof. solve_decision. Defined.

Definition has_alpha (m : Mode) : bool :=
  match m with
  | LA | PA | RGBA => true
  | _ => false
  end.

(** An image object.  [Image.open] is lazy: it parses the header (mode and
    size) and decodes the raster on first use, so [raster] is [None] for a
    file whose header parses and whose body does not decode.  Pixels are
    kept in their (R, G, B, A) rendering; for a mode without an alpha band
    the fourth component is not part of the image and [convert("RGBA")]
    fills it with 255. *)
Record Image : Type := mkImage {
  mode : Mode;
  size : nat * nat;
  raster : option (list pixel)
}.

Global Instance byte_eq_dec : EqDecision byte := Byte.byte_eq_dec.

Global Instance Image_eq_dec : EqDecision Image.
Proof. solve_decision. Defined.

(** The imaging library: [pil_open] is [Image.open] on a file's bytes
    ([None]: the file cannot be identified), [pil_encode_png] is the PNG
    encoder behind [Image.save(_, "PNG")] ([None]: the encoder raises, as it
    does for a mode PNG cannot store). *)
Record Codec : Type := mkCodec {
  pil_open : list byte → option Image;
  pil_encode_png : Image → option (list byte)
}.

(** ** Console, exceptions, program state *)

Inductive Exn : Set :=
  | FileNotFoundError
  | UnidentifiedImageError
  | DecodeError
  | EncodeError
  | IndexError.

Global Instance Exn_eq_dec : EqDecision Exn.
Proof. solve_decision. Defined.

(** One constructor per [print] of the program. *)
Inductive Line : Set :=
  | Scanning (root_dir : string)
  | DetectedJPEG (file_path : string)
  | ConvertedToPNG (file_path : string)
  | RemovedImport (import_file : string)
  | RemovedImportTransparency (import_file : string)
  | RemovedWhiteBackground (file_path : string)
  | ErrorProcessing (file_path : string) (e : Exn)
  | Finished (fixed_count transparent_count : nat).

Global Instance Line_eq_dec : EqDecision Line.
Proof. solve_decision. Defined.

Record State : Type := mkState {
  files : gmap string (list byte);
  console : list Line;
  fixed_count : nat;
  transparent_count : nat
}.

Definition set_files (f : gmap string (list byte)) (st : State) : State :=
  mkState f (console st) (fixed_count st) (transparent_count st).

(** ** A state monad with exceptions

    The state survives a raise: what was written before the exception stays
    written. *)

Inductive Result (A : Type) : Type :=
  | Ok (a : A)
  | Raise (e : Exn).
Arguments Ok {A} a.
Arguments Raise {A} e.

Definition M (A : Type) : Type := State → Result A * State.

Definition ret {A} (a : A) : M A := λ st, (Ok a, st).

Definition raise {A} (e : Exn) : M A := λ st, (Raise e, st).

Definition bind {A B} (m : M A) (k : A → M B) : M B :=
  λ st, match m st with
        | (Ok a, st') => k a st'
        | (Raise e, st') => (Raise e, st')
        end.

Notation "x <- m ;; k" := (bind m (λ x, k))
  (at level 100, m at next level, right associativity).
Notation "m ;;; k" := (bind m (λ _, k))
  (at level 100, right associativity).

(** [try: body except Exception as e: handler e] *)
Definition try_except (body : M unit) (handler : Exn → M unit) : M unit :=
  λ st, match body st with
        | (Ok tt, st') => (Ok tt, st')
        | (Raise e, st') => handler e st'
        end.

(** [for x in xs: body x] *)
Fixpoint for_each {A} (xs : list A) (body : A → M unit) : M unit :=
  match xs with
  | [] => ret tt
  | x :: xs' => body x ;;; for_each xs' body
  end.

Definition when (b : bool) (m : M unit) : M unit := if b then m else ret tt.

Definition print (l : Line) : M unit :=
  λ st, (Ok tt, mkState (files st) (console st ++ [l])
                        (fixed_count st) (transparent_count st)).

Definition incr_fixed_count : M unit :=
  λ st, (Ok tt, mkState (files st) (console st)
                        (S (fixed_count st)) (transparent_count st)).

Definition incr_transparent_count : M unit :=
  λ st, (Ok tt, mkState (files st) (console st)
                        (fixed_count st) (S (transparent_count st))).

(** ** File system operations *)

(** [with open(file_path, "rb") as f: header = f.read(4)] *)
Definition read_header (file_path : string) : M (list byte) :=
  λ st, match files st !! file_path with
        | Some bs => (Ok (take 4 bs), st)
        | None => (Raise FileNotFoundError, st)
        end.

Definition os_path_exists (path : string) : M bool :=
  λ st, (Ok (bool_decide (is_Some (files st !! path))), st).

Definition os_remove (path : string) : M unit :=
  λ st, match files st !! path with
        | Some _ => (Ok tt, set_files (delete path (files st)) st)
        | None => (Raise FileNotFoundError, st)
        end.

(** [bytes.startswith] *)
Definition startswith (bs magic : list byte) : bool :=
  bool_decide (magic `prefix_of` bs).

(** [b'\xff\xd8\xff'] and [b'\x89PNG'] *)
Definition jpeg_magic : list byte := [xff; xd8; xff].
Definition png_magic : list byte := [x89; x50; x4e; x47].

(** [str.endswith], used by the [**/*.png] pattern. *)
Definition endswith (s suffix_ : string) : bool :=
  bool_decide (String.list_ascii_of_string suffix_ `suffix_of` String.list_ascii_of_string s).

(** [glob.glob(os.path.join(root_dir, "**/*.png"), recursive=True)]: the
    files below [root_dir] whose name ends in [.png], in the order the
    directory listing gives them. *)
Definition glob_png (root_dir : string) (fs : gmap string (list byte)) : list string :=
  filter (λ p, String.prefix (root_dir +:+ "/") p = true ∧ endswith p ".png" = true)
         (map_to_list fs).*1.

(** ** Content sniffer (lines 15-19 and 40) *)

Inductive Encoding : Set := JPEG | PNG | UNKNOWN.

Definition classify (header : list byte) : Encoding :=
  if startswith header jpeg_magic then JPEG
  else if startswith header png_magic then PNG
  else UNKNOWN.

(** ** Background classifier and alpha compositor (lines 61-80) *)

(** [item[0] > 240 and item[1] > 240 and item[2] > 240] *)
Definition whiteish (item : pixel) : bool :=
  (240 <? chan0 item) && (240 <? chan1 item) && (240 <? chan2 item).

(** [bg_color = datas[0]] followed by the test of line 71; [None] is the
    [IndexError] of an empty sequence. *)
Definition isRemovableBackground (datas : list pixel) : option bool :=
  match datas !! 0%nat with
  | Some bg_color => Some (whiteish bg_color)
  | None => None
  end.

(** The loop of lines 72-78. *)
Definition removeBackground (datas : list pixel) : list pixel :=
  map (λ item, if whiteish item then (255, 255, 255, 0) else item) datas.

Section WithCodec.
Context (codec : Codec).

(** [Image.open(file_path)] *)
Definition Image_open (file_path : string) : M Image :=
  λ st, match files st !! file_path with
        | None => (Raise FileNotFoundError, st)
        | Some bs =>
            match pil_open codec bs with
            | Some img => (Ok img, st)
            | None => (Raise UnidentifiedImageError, st)
            end
        end.

(** [img.load()] *)
Definition Image_load (img : Image) : M unit :=
  match raster img with
  | Some _ => ret tt
  | None => raise DecodeError
  end.

(** [img.convert("RGBA")] *)
Definition to_rgba (m : Mode) (p : pixel) : pixel :=
  if has_alpha m then p else (chan0 p, chan1 p, chan2 p, 255).

Definition Image_convert_RGBA (img : Image) : M Image :=
  match raster img with
  | Some px => ret (mkImage RGBA (size img) (Some (map (to_rgba (mode img)) px)))
  | None => raise DecodeError
  end.

(** [img.getdata()] of a loaded image *)
Definition Image_getdata (img : Image) : list pixel :=
  default [] (raster img).

(** [img.putdata(newData)] *)
Definition Image_putdata (img : Image) (newData : list pixel) : Image :=
  mkImage (mode img) (size img) (Some newData).

(** [img.save(file_path, "PNG")]: the image is loaded, the target is
    opened for writing, which empties it, and the encoder then writes
    into it.  When the encoder raises, a file that [save] created is
    removed again; a file that was there before stays, empty. *)
Definition Image_save (img : Image) (file_path : string) : M unit :=
  Image_load img ;;;
  λ st,
    match pil_encode_png codec img with
    | Some bs => (Ok tt, set_files (<[file_path := bs]> (files st)) st)
    | None =>
        (Raise EncodeError,
         match files st !! file_path with
         | Some _ => set_files (<[file_path := []]> (files st)) st
         | None => st
         end)
    end.

(** Lines 56-85. *)
Definition make_transparent (img : Image) (file_path : string) : M bool :=
  img <- Image_convert_RGBA img ;;
  let datas := Image_getdata img in
  match isRemovableBackground datas with
  | None => raise IndexError
  | Some true =>
      let newData := removeBackground datas in
      let img := Image_putdata img newData in
      Image_save img file_path ;;;
      print (RemovedWhiteBackground file_path) ;;;
      ret true
  | Some false => ret false
  end.

(** The body of the [try] block, lines 15-49. *)
Definition process_file (file_path : string) : M unit :=
  header <- read_header file_path ;;
  match classify header with
  | JPEG =>
      print (DetectedJPEG file_path) ;;;
      img <- Image_open file_path ;;
      Image_load img ;;;
      Image_save img file_path ;;;
      print (ConvertedToPNG file_path) ;;;
      img <- Image_open file_path ;;
      changed <- make_transparent img file_path ;;
      when changed incr_transparent_count ;;;
      let import_file := file_path +:+ ".import" in
      present <- os_path_exists import_file ;;
      when present (os_remove import_file ;;;
                    print (RemovedImport import_file)) ;;;
      incr_fixed_count
  | PNG =>
      img <- Image_open file_path ;;
      if bool_decide (mode img = RGB) then
        changed <- make_transparent img file_path ;;
        when changed
          (incr_transparent_count ;;;
           let import_file := file_path +:+ ".import" in
           present <- os_path_exists import_file ;;
           when present (os_remove import_file ;;;
                         print (RemovedImportTransparency import_file)))
      else ret tt
  | UNKNOWN => ret tt
  end.

(** One iteration of the loop of line 13: the [try] block and its
    handler. *)
Definition iteration (file_path : string) : M unit :=
  try_except (process_file file_path)
             (λ e, print (ErrorProcessing file_path e)).

(** Lines 5-54. *)
Definition fix_icons (root_dir : string) : M unit :=
  print (Scanning root_dir) ;;;
  λ st0,
    let files_ := glob_png root_dir (files st0) in
    let st1 := mkState (files st0) (console st0) 0 0 in
    (for_each files_ iteration ;;;
     λ st, print (Finished (fixed_count st) (transparent_count st)) st) st1.

(** A run of the tool on a tree. *)
Definition run (root_dir : string) (fs : gmap string (list byte)) : Result unit * State :=
  fix_icons root_dir (mkState fs [] 0 0).

(** The state after the loop of line 13 over [l]. *)
Definition walk (l : list string) (st : State) : State :=
  foldl (λ st p, (iteration p st).2) st l.

(** The codec round trip: what the PNG encoder writes starts with the PNG
    signature and opens as the image that was saved. *)
Definition png_roundtrip : Prop :=
  ∀ img bs, is_Some (raster img) → pil_encode_png codec img = Some bs →
    png_magic `prefix_of` bs ∧ pil_open codec bs = Some img.

(** Files the tool has nothing left to do on.

    [settled] describes, from the bytes alone, the files on which an
    iteration writes nothing: a missing file, a file that is neither a
    JPEG nor a PNG, a JPEG or PNG that does not open or load, a PNG that
    is not in mode RGB, and an RGB PNG whose corner is not near-white. *)
Definition settled (content : option (list byte)) : Prop :=
  match content with
  | None => True
  | Some bs =>
      match classify (take 4 bs) with
      | UNKNOWN => True
      | JPEG =>
          match pil_open codec bs with
          | None => True
          | Some img => raster img = None
          end
      | PNG =>
          match pil_open codec bs with
          | None => True
          | Some img =>
              mode img ≠ RGB ∨
              match raster img with
              | None => True
              | Some px =>
                  isRemovableBackground (map (to_rgba (mode img)) px) ≠ Some true
              end
          end
      end
  end.

End WithCodec.

(** The companion file of an asset, [file_path + ".import"]. *)
Definition sidecar (file_path : string) : string := file_path +:+ ".import".

(** ** A small concrete codec and tree

    A table-driven codec: a handful of byte strings and the images they
    decode to, used to run the tool on concrete trees. *)
Module Demo.

Fixpoint assoc {A B} `{EqDecision A} (a : A) (t : list (A * B)) : option B :=
  match t with
  | [] => None
  | (a', b) :: t' => if decide (a = a') then Some b else assoc a t'
  end.

Definition jpg (tag : byte) : list byte := jpeg_magic ++ [xe0; tag].
Definition png (tag : byte) : list byte := png_magic ++ [tag].

(** An RGB icon on a white background, and its rewrite. *)
Definition white_rgb : Image :=
  mkImage RGB (2, 1)%nat (Some [(255, 255, 255, 255); (10, 20, 30, 255)]).
Definition white_done : Image :=
  mkImage RGBA (2, 1)%nat (Some [(255, 255, 255, 0); (10, 20, 30, 255)]).
(** An RGB icon whose corner has one channel at exactly 240. *)
Definition dark_rgb : Image :=
  mkImage RGB (2, 1)%nat (Some [(240, 255, 255, 255); (250, 250, 250, 255)]).
(** A greyscale icon with a near-white corner, and its rewrite. *)
Definition grey_l : Image :=
  mkImage L (2, 1)%nat (Some [(250, 250, 250, 255); (3, 3, 3, 255)]).
Definition grey_done : Image :=
  mkImage RGBA (2, 1)%nat (Some [(255, 255, 255, 0); (3, 3, 3, 255)]).
(** A CMYK picture: JPEG stores it, PNG does not. *)
Definition cmyk : Image :=
  mkImage CMYK (1, 1)%nat (Some [(12, 34, 56, 255)]).

Definition open_table : list (list byte * Image) :=
  [ (jpg x01, white_rgb); (jpg x02, dark_rgb); (jpg x03, grey_l); (jpg x04, cmyk);
    (png x01, white_rgb); (png x02, dark_rgb); (png x03, grey_l);
    (png x11, white_done); (png x13, grey_done) ].

Definition png_table : list (Image * list byte) :=
  [ (white_rgb, png x01); (dark_rgb, png x02); (grey_l, png x03);
    (white_done, png x11); (grey_done, png x13) ].

Definition codec : Codec :=
  mkCodec (λ bs, assoc bs open_table) (λ img, assoc img png_table).

Definition tree : gmap string (list byte) :=
  list_to_map
    [ ("icons/icon_a.png", png x01); ("icons/icon_a.png.import", [x2a]);
      ("icons/icon_b.png", jpg x01); ("icons/icon_b.png.import", [x2a]);
      ("icons/icon_c.png", png x11); ("icons/icon_c.png.import", [x2a]);
      ("icons/units/dark.png", jpg x02); ("icons/units/dark.png.import", [x2a]);
      ("icons/units/grey.png", png x03);
      ("icons/units/print.png", jpg x04); ("icons/units/print.png.import", [x2a]);
      ("icons/notes.png", [x68; x69]);
      ("elsewhere/icon.png", png x01) ].

End Demo.

(** ** Reading the console *)

(** The lines [Removed white background: ...] and [Converted to valid PNG:
    ...], which the summary of line 54 is compared with. *)
Definition is_removed_line (l : Line) : bool :=
  match l with RemovedWhiteBackground _ => true | _ => false end.

Definition is_converted_line (l : Line) : bool :=
  match l with ConvertedToPNG _ => true | _ => false end.

Definition count_lines (f : Line → bool) (out : list Line) : nat :=
  length (List.filter f out).

(** Two states with the same tree and the same counters: they may differ
    in what has been printed. *)
Definition same_outcome (a b : State) : Prop :=
  files a = files b
  ∧ fixed_count a = fixed_count b
  ∧ transparent_count a = transparent_count b.

(** * Ammunition rebalance: [tools/rebalance_ammo.py]

    The tool reads every unit file, sets the [max_ammo] of each weapon to 10
    or 20 by the weapon's name, and writes the file back when something
    changed.  The JSON library is a parameter ([JsonLib]); the data it
    returns are Python values.  Text is ASCII.  Floating-point numbers are
    carried as the library gives them and only compared with an integer,
    by a test the library provides. *)
Module Rebalance.

(** [str.lower()] *)
Definition lower_char (c : Ascii.ascii) : Ascii.ascii :=
  let n := Ascii.nat_of_ascii c in
  if (65 <=? n)%nat && (n <=? 90)%nat then Ascii.ascii_of_nat (n + 32) else c.

Fixpoint lower (s : string) : string :=
  match s with
  | EmptyString => EmptyString
  | String c s' => String (lower_char c) (lower s')
  end.

(** [kw in wid] on strings: [kw] occurs in [wid]. *)
Fixpoint contains (kw s : string) : bool :=
  String.prefix kw s
  || match s with
     | EmptyString => false
     | String _ s' => contains kw s'
     end.

Definition HEAVY_KEYWORDS : list string :=
  ["cannon"; "missile"; "rocket"; "bomb"; "mortar";
   "howitzer"; "fusion"; "launcher"; "railgun"].

Definition AMMO_HEAVY : Z := 10.
Definition AMMO_STANDARD : Z := 20.

(** The loop of lines 17-22 over the keywords that are left. *)
Fixpoint is_heavy_from (keywords : list string) (wid : string) : bool :=
  match keywords with
  | [] => false
  | kw :: rest =>
      if contains kw wid then
        if contains "rotary" wid && negb (contains "missile" wid) then false
        else true
      else is_heavy_from rest wid
  end.

(** Lines 15-22. *)
Definition is_heavy (weapon_id : string) : bool :=
  let wid := lower weapon_id in
  is_heavy_from HEAVY_KEYWORDS wid.

(** The ammunition a weapon should carry, lines 36-38. *)
Definition target_of (wid : string) : Z :=
  if is_heavy wid then AMMO_HEAVY else AMMO_STANDARD.

(** What [json.load] returns: Python values.  A dictionary keeps its items
    in insertion order. *)
#[local] Set Warnings "-register-all".
Inductive PyVal (F : Type) : Type :=
  | PyNone
  | PyBool (b : bool)
  | PyInt (z : Z)
  | PyFloat (f : F)
  | PyStr (s : string)
  | PyList (l : list (PyVal F))
  | PyDict (d : list (string * PyVal F)).
Arguments PyNone {F}.
Arguments PyBool {F} b.
Arguments PyInt {F} z.
Arguments PyFloat {F} f.
Arguments PyStr {F} s.
Arguments PyList {F} l.
Arguments PyDict {F} d.

Global Instance PyVal_eq_dec {F} `{EqDecision F} : EqDecision (PyVal F).
Proof.
  refine (
    fix go (x y : PyVal F) {struct x} : Decision (x = y) :=
      match x, y with
      | PyNone, PyNone => left _
      | PyBool a, PyBool b => cast_if (decide (a = b))
      | PyInt a, PyInt b => cast_if (decide (a = b))
      | PyFloat a, PyFloat b => cast_if (decide (a = b))
      | PyStr a, PyStr b => cast_if (decide (a = b))
      | PyList a, PyList b => cast_if (@decide (a = b) (@list_eq_dec _ go a b))
      | PyDict a, PyDict b =>
          cast_if (@decide (a = b)
                     (@list_eq_dec _ (@prod_eq_dec _ _ _ go) a b))
      | _, _ => right _
      end); congruence.
Defined.

(** The JSON library: the type of floats with its comparison to an integer,
    [json.load] on a file's text ([None]: the text is no JSON) and
    [json.dump(_, indent=4)]. *)
Record JsonLib : Type := mkJsonLib {
  pyfloat : Type;
  float_eq_int : pyfloat → Z → bool;
  json_load : string → option (PyVal pyfloat);
  json_dump : PyVal pyfloat → string
}.

Inductive Exn : Set :=
  | FileNotFoundError
  | JSONDecodeError
  | TypeError
  | KeyError
  | AttributeError.

Section Values.
Context {F : Type} (eq_int : F → Z → bool).

Fixpoint assoc (key : string) (d : list (string * PyVal F)) : option (PyVal F) :=
  match d with
  | [] => None
  | (k, v) :: d' => if decide (k = key) then Some v else assoc key d'
  end.

(** [d[key] = v]: an existing key keeps its place, a new one goes last. *)
Fixpoint assoc_set (key : string) (v : PyVal F) (d : list (string * PyVal F))
    : list (string * PyVal F) :=
  match d with
  | [] => [(key, v)]
  | (k, x) :: d' =>
      if decide (k = key) then (k, v) :: d' else (k, x) :: assoc_set key v d'
  end.

(** The ammunition a weapon carries, line 34. *)
Definition ammo_of (d : list (string * PyVal F)) : PyVal F :=
  default (PyInt 999) (assoc "max_ammo" d).

(** [key in data] *)
Definition py_contains (key : string) (data : PyVal F) : Exn + bool :=
  match data with
  | PyDict d => inr (bool_decide (is_Some (assoc key d)))
  | PyList l =>
      inr (existsb (λ x, if x is PyStr s then bool_decide (s = key) else false) l)
  | PyStr s => inr (contains key s)
  | _ => inl TypeError
  end.

(** [data[key]] with a string key *)
Definition py_getitem (data : PyVal F) (key : string) : Exn + PyVal F :=
  match data with
  | PyDict d =>
      match assoc key d with
      | Some v => inr v
      | None => inl KeyError
      end
  | _ => inl TypeError
  end.

(** The items [for x in v] goes through. *)
Definition py_iter (v : PyVal F) : Exn + list (PyVal F) :=
  match v with
  | PyList l => inr l
  | PyDict d => inr (map (λ kv, PyStr kv.1) d)
  | PyStr s => inr (map (λ c, PyStr (String c EmptyString))
                        (String.list_ascii_of_string s))
  | _ => inl TypeError
  end.

(** [v != n] for an integer [n] *)
Definition py_ne_int (v : PyVal F) (n : Z) : bool :=
  match v with
  | PyInt z => negb (z =? n)
  | PyBool b => negb ((if b then 1 else 0) =? n)
  | PyFloat f => negb (eq_int f n)
  | _ => true
  end.

(** One line of the console.  [Processing] and [Updated] stand for the
    lines that show the base name of the path they carry. *)
Inductive Line : Type :=
  | Starting
  | Processing (filepath : string)
  | AmmoChange (wid : string) (current_ammo : PyVal F) (target_ammo : Z)
  | Updated (filepath : string)
  | ErrorProcessing (filepath : string) (e : Exn)
  | FinishedProcessing (count : nat).

(** The body of the loop of line 31, for one weapon: the weapon as it is
    afterwards and the line printed, if any. *)
Definition rebalance_weapon (weapon : PyVal F)
    : Exn + (PyVal F * option Line) :=
  match py_getitem weapon "weapon_id" with
  | inl e => inl e
  | inr wid =>
      match weapon with
      | PyDict d =>
          let current_ammo := default (PyInt 999) (assoc "max_ammo" d) in
          match wid with
          | PyStr wid_s =>
              let target_ammo := if is_heavy wid_s then AMMO_HEAVY else AMMO_STANDARD in
              if py_ne_int current_ammo target_ammo then
                inr (PyDict (assoc_set "max_ammo" (PyInt target_ammo) d),
                     Some (AmmoChange wid_s current_ammo target_ammo))
              else inr (weapon, None)
          | _ => inl AttributeError
          end
      | _ => inl TypeError
      end
  end.

(** The loop of lines 31-44: what is printed, and either the exception that
    ended it or the weapons as they are afterwards with [updated]. *)
Fixpoint rebalance_weapons (weapons : list (PyVal F))
    : list Line * (Exn + (list (PyVal F) * bool)) :=
  match weapons with
  | [] => ([], inr ([], false))
  | weapon :: rest =>
      match rebalance_weapon weapon with
      | inl e => ([], inl e)
      | inr (weapon', line) =>
          let '(lines, r) := rebalance_weapons rest in
          (from_option (λ l, [l]) [] line ++ lines,
           match r with
           | inl e => inl e
           | inr (rest', updated) =>
               inr (weapon' :: rest', bool_decide (is_Some line) || updated)
           end)
      end
  end.

End Values.

Record World (F : Type) : Type := mkWorld {
  disk : gmap string string;
  out : list (Line (F := F))
}.
Arguments mkWorld {F} disk out.
Arguments disk {F} w.
Arguments out {F} w.

Section WithJson.
Context (lib : JsonLib).

Abbreviation F := (pyfloat lib).

Definition print (l : Line) (w : World F) : World F :=
  mkWorld (disk w) (out w ++ [l]).

Definition prints (ls : list Line) (w : World F) : World F :=
  mkWorld (disk w) (out w ++ ls).

(** Lines 26-49, the body of the [try]: the world afterwards and the
    exception, if one was raised. *)
Definition process_file_body (filepath : string) (w : World F)
    : World F * option Exn :=
  match disk w !! filepath with
  | None => (w, Some FileNotFoundError)
  | Some text =>
      match json_load lib text with
      | None => (w, Some JSONDecodeError)
      | Some data =>
          match py_contains "weapons" data with
          | inl e => (w, Some e)
          | inr false => (w, None)
          | inr true =>
              match py_getitem data "weapons" with
              | inl e => (w, Some e)
              | inr weapons =>
                  match py_iter weapons with
                  | inl e => (w, Some e)
                  | inr items =>
                      let '(lines, r) := rebalance_weapons (float_eq_int lib) items in
                      let w := prints lines w in
                      match r with
                      | inl e => (w, Some e)
                      | inr (items', updated) =>
                          if updated then
                            let data' :=
                              match data with
                              | PyDict d =>
                                  PyDict (assoc_set "weapons" (PyList items') d)
                              | _ => data
                              end in
                            (print (Updated filepath)
                               (mkWorld (<[filepath := json_dump lib data']> (disk w))
                                        (out w)),
                             None)
                          else (w, None)
                      end
                  end
              end
          end
      end
  end.

(** Lines 24-52. *)
Definition process_file (filepath : string) (w : World F) : World F :=
  match process_file_body filepath w with
  | (w', None) => w'
  | (w', Some e) => print (ErrorProcessing filepath e) w'
  end.

(** The library reads the text [t] back: a value it dumps as [t] is the
    value it loads from [t]. *)
Definition reads_back (t : string) : Prop :=
  ∀ v, json_dump lib v = t → json_load lib t = Some v.

(** The contents on which a pass writes nothing. *)
Definition settled_text (content : option string) : Prop :=
  ∀ p w, disk w !! p = content → disk (process_file p w) = disk w.

Definition UNITS_DIR : string :=
  "c:\Users\duxbu\OneDrive\Documents\code\waryes\units".

(** The files [os.walk] reaches below [top] whose name ends in [.json]. *)
Definition walk_json (top : string) (fs : gmap string string) : list string :=
  filter (λ p, String.prefix (top +:+ "\") p = true ∧ endswith p ".json" = true)
         (map_to_list fs).*1.

(** The loop of lines 57-62 over the files that are left, with [count]. *)
Fixpoint main_loop (paths : list string) (count : nat) (w : World F)
    : nat * World F :=
  match paths with
  | [] => (count, w)
  | path :: rest =>
      let w := print (Processing path) w in
      let w := process_file path w in
      main_loop rest (S count) w
  end.

(** Lines 54-63. *)
Definition main (w : World F) : World F :=
  let w := print Starting w in
  let '(count, w) := main_loop (walk_json UNITS_DIR (disk w)) 0 w in
  print (FinishedProcessing count) w.

End WithJson.

End Rebalance.

(** A small JSON library and disk for the rebalance: two unit files, one of
    them with a weapon that has no [weapon_id], and a table for the texts.
    A float is kept by its value when it is a whole number. *)
Module RebalanceDemo.

Import Rebalance.

Definition tank_items : list (PyVal Z) :=
  [PyDict [("weapon_id", PyStr "Heavy_Cannon"); ("max_ammo", PyInt 40)];
   PyDict [("weapon_id", PyStr "rotary_cannon")];
   PyDict [("weapon_id", PyStr "bolter"); ("max_ammo", PyFloat 20)]].

Definition tank_items_done : list (PyVal Z) :=
  [PyDict [("weapon_id", PyStr "Heavy_Cannon"); ("max_ammo", PyInt 10)];
   PyDict [("weapon_id", PyStr "rotary_cannon"); ("max_ammo", PyInt 20)];
   PyDict [("weapon_id", PyStr "bolter"); ("max_ammo", PyFloat 20)]].

Definition tank_lines : list (Line (F := Z)) :=
  [AmmoChange "Heavy_Cannon" (PyInt 40) 10;
   AmmoChange "rotary_cannon" (PyInt 999) 20].

Definition tank_fields : list (string * PyVal Z) :=
  [("name", PyStr "Tank"); ("weapons", PyList tank_items)].

Definition tank : PyVal Z := PyDict tank_fields.

Definition tank_done : PyVal Z :=
  PyDict [("name", PyStr "Tank"); ("weapons", PyList tank_items_done)].

Definition broken : PyVal Z :=
  PyDict [("weapons",
           PyList [PyDict [("weapon_id", PyStr "mortar"); ("max_ammo", PyInt 3)];
                   PyDict [("max_ammo", PyInt 5)]])].

Definition load_table : list (string * PyVal Z) :=
  [("tank v1", tank); ("tank v2", tank_done); ("broken", broken)].

Definition dump_table : list (PyVal Z * string) :=
  [(tank_done, "tank v2")].

Definition lib : JsonLib :=
  mkJsonLib Z Z.eqb (λ text, Demo.assoc text load_table)
            (λ v, default "?" (Demo.assoc v dump_table)).

Definition tank_path : string :=
  "c:\Users\duxbu\OneDrive\Documents\code\waryes\units\tank.json".
Definition broken_path : string :=
  "c:\Users\duxbu\OneDrive\Documents\code\waryes\units\old\broken.json".

Definition world : World Z :=
  mkWorld (list_to_map [(tank_path, "tank v1"); (broken_path, "broken");
                        ("c:\elsewhere\tank.json", "tank v1")])
          [].

End RebalanceDemo.

(** ** Basic facts: strings, magic numbers, the sniffer *)

Lemma list_ascii_of_string_app (s t : string) :
  String.list_ascii_of_string (s +:+ t)
  = String.list_ascii_of_string s ++ String.list_ascii_of_string t.
Proof. induction s as [|c s IH]; simpl; [done | by rewrite IH]. Qed.

Lemma sidecar_not_png (p q : string) : endswith q ".png" = true → q ≠ sidecar p.
Proof.
  unfold endswith, sidecar. intros Hq%bool_decide_eq_true_1 ->.
  rewrite list_ascii_of_string_app in Hq. simpl in Hq.
  destruct Hq as [k Hk].
  apply (f_equal (@rev _)) in Hk.
  rewrite !rev_app_distr in Hk. simpl in Hk. by simplify_eq.
Qed.

Lemma sidecar_ne (p : string) : sidecar p ≠ p.
Proof.
  unfold sidecar. intros H.
  apply (f_equal String.list_ascii_of_string) in H.
  rewrite list_ascii_of_string_app in H.
  apply (f_equal length) in H. rewrite length_app in H. simpl in H. lia.
Qed.

Lemma startswith_take (m bs : list byte) (n : nat) :
  (length m ≤ n)%nat → startswith (take n bs) m = startswith bs m.
Proof.
  intros Hn. unfold startswith. apply bool_decide_ext. split.
  - intros H. trans (take n bs); [done | apply prefix_take].
  - intros [k ->]. rewrite take_app, take_ge by done. by apply prefix_app_r.
Qed.

Lemma classify_header (bs : list byte) : classify (take 4 bs) = classify bs.
Proof.
  unfold classify.
  rewrite !startswith_take by (simpl; lia). done.
Qed.

Lemma magic_exclusive (bs : list byte) :
  jpeg_magic `prefix_of` bs → png_magic `prefix_of` bs → False.
Proof. intros [k1 ->] [k2 H]. discriminate H. Qed.

Lemma classify_JPEG (bs : list byte) : classify bs = JPEG ↔ jpeg_magic `prefix_of` bs.
Proof.
  unfold classify, startswith. repeat case_bool_decide; split; try done.
Qed.

Lemma classify_PNG (bs : list byte) : classify bs = PNG ↔ png_magic `prefix_of` bs.
Proof.
  unfold classify, startswith. repeat case_bool_decide; split; try done.
  intros. exfalso. eauto using magic_exclusive.
Qed.

Lemma classify_UNKNOWN (bs : list byte) :
  classify bs = UNKNOWN ↔ ¬ jpeg_magic `prefix_of` bs ∧ ¬ png_magic `prefix_of` bs.
Proof.
  unfold classify, startswith. repeat case_bool_decide; split; try done; tauto.
Qed.

Lemma whiteish_spec (item : pixel) :
  whiteish item = true ↔ 240 < chan0 item ∧ 240 < chan1 item ∧ 240 < chan2 item.
Proof.
  unfold whiteish. rewrite !andb_true_iff, !Z.ltb_lt. tauto.
Qed.

Lemma removeBackground_lookup (datas : list pixel) (i : nat) :
  removeBackground datas !! i
  = (λ item, if whiteish item then (255, 255, 255, 0) else item) <$> datas !! i.
Proof. unfold removeBackground. apply list_lookup_fmap. Qed.


(** ** One file at a time *)

Ltac exec :=
  cbv beta delta
    [iteration try_except process_file make_transparent Image_save Image_open
     Image_load Image_convert_RGBA Image_getdata Image_putdata read_header
     os_path_exists os_remove when print incr_fixed_count
     incr_transparent_count bind ret raise set_files] in *;
  simpl in *.

Ltac step_match :=
  rewrite ?lookup_insert_eq, ?lookup_delete_eq in *;
  match goal with
  | |- context [match ?x with _ => _ end] =>
      lazymatch x with
      | context [match _ with _ => _ end] => fail
      | _ => idtac
      end;
      first [ match goal with H : x = _ |- _ => rewrite H end
            | destruct x eqn:? ]
  end; simplify_eq/=;
  repeat match goal with
         | H : bool_decide _ = true |- _ => apply bool_decide_eq_true_1 in H
         | H : bool_decide _ = false |- _ => apply bool_decide_eq_false_1 in H
         end.

Ltac use_lookups :=
  repeat match goal with
         | H : files _ !! _ = _ |- _ => progress rewrite H
         end.

Section PerFile.
Context (codec : Codec).

Lemma iteration_Ok (p : string) (st : State) : (iteration codec p st).1 = Ok tt.
Proof.
  exec. repeat step_match; done.
Qed.

(** Everything but the file itself is left alone or removed. *)
Lemma iteration_other (p q : string) (st : State) :
  q ≠ p →
  files (iteration codec p st).2 !! q = files st !! q
  ∨ files (iteration codec p st).2 !! q = None.
Proof.
  intros Hq. exec.
  repeat step_match; rewrite ?lookup_insert_ne by done; auto;
    destruct (decide (q = p +:+ ".import")) as [->|];
    rewrite ?lookup_delete_eq, ?lookup_delete_ne, ?lookup_insert_ne by done;
    auto.
Qed.

(** Only the file and its sidecar are touched. *)
Lemma iteration_frame (p q : string) (st : State) :
  q ≠ p → q ≠ sidecar p →
  files (iteration codec p st).2 !! q = files st !! q.
Proof.
  unfold sidecar. intros Hq Hs. exec.
  repeat step_match;
    rewrite ?lookup_delete_ne, ?lookup_insert_ne by done; auto.
Qed.

(** The file is never removed, and never created. *)
Lemma iteration_keeps (p : string) (st : State) :
  is_Some (files (iteration codec p st).2 !! p) ↔ is_Some (files st !! p).
Proof.
  pose proof (sidecar_ne p) as Hs. unfold sidecar in Hs. exec.
  repeat step_match;
    rewrite ?lookup_delete_ne, ?lookup_insert_eq by done;
    use_lookups; try done; try (split; intros; eauto; done).
Qed.

Lemma settled_quiet (p : string) (st : State) :
  settled codec (files st !! p) →
  files (iteration codec p st).2 = files st
  ∧ fixed_count (iteration codec p st).2 = fixed_count st
  ∧ transparent_count (iteration codec p st).2 = transparent_count st.
Proof.
  unfold settled. exec.
  repeat step_match; try done; intros [?|?]; done.
Qed.

Lemma roundtrip_facts (img : Image) (bs : list byte) :
  png_roundtrip codec → is_Some (raster img) → pil_encode_png codec img = Some bs →
  classify (take 4 bs) = PNG ∧ pil_open codec bs = Some img.
Proof.
  intros Hrt Hr He. destruct (Hrt img bs Hr He) as [Hp Ho]. split; [|done].
  rewrite classify_header. by apply classify_PNG.
Qed.

Ltac use_roundtrip Hrt :=
  repeat match goal with
         | H : pil_encode_png _ ?img = Some ?bs |- _ =>
             lazymatch goal with
             | _ : pil_open _ bs = Some img |- _ => fail
             | _ => destruct (roundtrip_facts img bs Hrt) as [? ?];
                    [simpl; eauto | exact H |]
             end
         end.

Lemma iteration_settles (p : string) (st : State) :
  png_roundtrip codec → settled codec (files (iteration codec p st).2 !! p).
Proof.
  intros Hrt. pose proof (sidecar_ne p) as Hs. unfold sidecar in Hs. exec.
  repeat (use_roundtrip Hrt; step_match);
    rewrite ?lookup_delete_ne, ?lookup_insert_eq by done;
    use_lookups; unfold settled; simpl; repeat step_match; auto;
    try (right; congruence); try (left; congruence).
Qed.

End PerFile.

(** ** The walk *)

Section Walk.
Context (codec : Codec).

Lemma for_each_iteration (l : list string) (st : State) :
  for_each l (iteration codec) st = (Ok tt, walk codec l st).
Proof.
  revert st. induction l as [|p l IH]; intros st; [done|].
  simpl. unfold bind at 1.
  pose proof (iteration_Ok codec p st) as Hok.
  destruct (iteration codec p st) as [[[]|e] st'] eqn:Hit; simpl in *; [|done].
  by rewrite IH.
Qed.

Lemma walk_snoc (l : list string) (p : string) (st : State) :
  walk codec (l ++ [p]) st = (iteration codec p (walk codec l st)).2.
Proof. unfold walk. by rewrite foldl_app. Qed.

Lemma glob_png_spec (root_dir p : string) (fs : gmap string (list byte)) :
  p ∈ glob_png root_dir fs ↔
    is_Some (fs !! p) ∧ String.prefix (root_dir +:+ "/") p = true
    ∧ endswith p ".png" = true.
Proof.
  unfold glob_png. rewrite list_elem_of_filter, list_elem_of_fmap.
  split.
  - intros [[? ?] [[k bs] [-> Hin%elem_of_map_to_list]]]. simpl. eauto.
  - intros [[bs Hbs] [? ?]]. split; [done|].
    exists (p, bs). split; [done|]. by apply elem_of_map_to_list.
Qed.

(** Nothing is created by the walk. *)
Lemma walk_no_new_file (l : list string) (st : State) (q : string) :
  is_Some (files (walk codec l st) !! q) → is_Some (files st !! q).
Proof.
  induction l as [|p l IH] using rev_ind; [done|].
  rewrite walk_snoc. intros Hq. apply IH.
  destruct (decide (q = p)) as [->|Hne].
  - by apply iteration_keeps in Hq.
  - destruct (iteration_other codec p q (walk codec l st) Hne) as [<-|Hn]; [done|].
    rewrite Hn in Hq. by destruct Hq.
Qed.

(** After the walk, every file it visited is settled. *)
Lemma walk_settles (l : list string) (st : State) :
  png_roundtrip codec →
  Forall (λ p, endswith p ".png" = true) l →
  Forall (λ p, settled codec (files (walk codec l st) !! p)) l.
Proof.
  intros Hrt. induction l as [|p l IH] using rev_ind; [constructor|].
  intros [Hl [Hp _]%Forall_cons_1]%Forall_app.
  rewrite walk_snoc. apply Forall_app. split.
  - specialize (IH Hl). rewrite Forall_forall in IH, Hl |- *.
    intros q Hq. destruct (decide (q = p)) as [->|Hne].
    + by apply iteration_settles.
    + rewrite iteration_frame; [by apply IH | done |].
      apply sidecar_not_png. by apply Hl.
  - apply Forall_singleton. by apply iteration_settles.
Qed.

(** A walk over settled files changes neither the tree nor a counter. *)
Lemma walk_quiet (l : list string) (st : State) :
  Forall (λ p, settled codec (files st !! p)) l →
  files (walk codec l st) = files st
  ∧ fixed_count (walk codec l st) = fixed_count st
  ∧ transparent_count (walk codec l st) = transparent_count st.
Proof.
  induction l as [|p l IH] using rev_ind; [done|].
  intros [Hl [Hp _]%Forall_cons_1]%Forall_app.
  destruct (IH Hl) as (Hf & Hc & Ht). rewrite walk_snoc.
  destruct (settled_quiet codec p (walk codec l st)) as (Hf' & Hc' & Ht').
  { by rewrite Hf. }
  split_and!; congruence.
Qed.

(** The shape of a run: the result is [Ok], the tree is the one the walk
    leaves, and the counters are those of the walk started at zero. *)
Lemma run_unfold (root_dir : string) (fs : gmap string (list byte)) :
  let w := walk codec (glob_png root_dir fs) (mkState fs [Scanning root_dir] 0 0) in
  run codec root_dir fs
  = (Ok tt, mkState (files w)
              (console w ++ [Finished (fixed_count w) (transparent_count w)])
              (fixed_count w) (transparent_count w)).
Proof.
  unfold run, fix_icons, bind, print. simpl.
  by rewrite for_each_iteration.
Qed.
End Walk.

(** ** The demo codec is a round-trip codec *)

Lemma demo_codec_roundtrip : png_roundtrip Demo.codec.
Proof.
  intros img bs _ He. simpl in He. unfold Demo.png_table in He. simpl in He.
  repeat case_decide; simplify_eq; (split; [by eexists | by vm_compute]).
Qed.

(** * The alpha compositor *)

(** C1, as the specification words it (every output pixel keeps the colour
    channels of its input pixel), fails: a near-white pixel that is not pure
    white is replaced by (255, 255, 255, 0), colour channels included. *)
Lemma compositor_changes_colour_channels :
  ¬ (∀ (datas : list pixel) (i : nat) (item out : pixel),
       datas !! i = Some item → removeBackground datas !! i = Some out →
       chan0 out = chan0 item ∧ chan1 out = chan1 item ∧ chan2 out = chan2 item).
Proof.
  intros H.
  destruct (H [(250, 245, 241, 255)] 0%nat (250, 245, 241, 255) (255, 255, 255, 0))
    as [Hc _]; [done | done | discriminate Hc].
Qed.

(** C1, amended: a pixel outside the threshold rule is returned as it is, in
    all four channels; a pixel whose three colour channels all exceed 240
    becomes (255, 255, 255, 0).  So a pixel is changed only under the
    threshold rule, its alpha becomes 0, and its colour channels become
    255 (and stay what they were only where they already were 255). *)
Theorem compositor_frame (datas : list pixel) (i : nat) (item out : pixel) :
  datas !! i = Some item →
  removeBackground datas !! i = Some out →
  (¬ (240 < chan0 item ∧ 240 < chan1 item ∧ 240 < chan2 item) → out = item)
  ∧ (240 < chan0 item ∧ 240 < chan1 item ∧ 240 < chan2 item →
     out = (255, 255, 255, 0))
  ∧ (out ≠ item → 240 < chan0 item ∧ 240 < chan1 item ∧ 240 < chan2 item).
Proof.
  intros Hi. rewrite removeBackground_lookup, Hi. simpl. intros [= <-].
  destruct (whiteish item) eqn:E.
  - apply whiteish_spec in E. split_and!; intros; tauto.
  - assert (¬ (240 < chan0 item ∧ 240 < chan1 item ∧ 240 < chan2 item)) as Hn.
    { intros Hc%whiteish_spec. congruence. }
    split_and!; intros; tauto.
Qed.

Lemma compositor_frame_witness :
  (¬ (240 < 250 ∧ 240 < 245 ∧ 240 < 241) → (255, 255, 255, 0) = (250, 245, 241, 255))
  ∧ (240 < 250 ∧ 240 < 245 ∧ 240 < 241 →
     (255, 255, 255, 0) = ((255, 255, 255, 0) : pixel))
  ∧ ((255, 255, 255, 0) ≠ (250, 245, 241, 255) → 240 < 250 ∧ 240 < 245 ∧ 240 < 241).
Proof.
  apply (compositor_frame [(10, 20, 30, 255); (250, 245, 241, 255)] 1%nat
           (250, 245, 241, 255) (255, 255, 255, 0)); reflexivity.
Defined.

(** C5: the compositor returns a grid of the same dimensions, in which each
    pixel whose three colour channels all exceed 240 is (255, 255, 255, 0)
    and every other pixel is the input pixel, alpha included. *)
Theorem compositor_pointwise (img : Image) (datas : list pixel) (i : nat) (item : pixel) :
  datas !! i = Some item →
  length (removeBackground datas) = length datas
  ∧ size (Image_putdata img (removeBackground datas)) = size img
  ∧ (240 < chan0 item ∧ 240 < chan1 item ∧ 240 < chan2 item →
     removeBackground datas !! i = Some (255, 255, 255, 0))
  ∧ (¬ (240 < chan0 item ∧ 240 < chan1 item ∧ 240 < chan2 item) →
     removeBackground datas !! i = Some item).
Proof.
  intros Hi. split_and!.
  - unfold removeBackground. by rewrite length_map.
  - done.
  - intros Hw%whiteish_spec. by rewrite removeBackground_lookup, Hi; simpl; rewrite Hw.
  - intros Hw. rewrite removeBackground_lookup, Hi. simpl.
    destruct (whiteish item) eqn:E; [|done]. by apply whiteish_spec in E.
Qed.

Lemma compositor_pointwise_witness :
  length (removeBackground [(241, 241, 241, 7); (241, 240, 255, 9)]) = 2%nat
  ∧ size (Image_putdata Demo.white_done
            (removeBackground [(241, 241, 241, 7); (241, 240, 255, 9)])) = (2, 1)%nat
  ∧ (240 < 241 ∧ 240 < 240 ∧ 240 < 255 →
     removeBackground [(241, 241, 241, 7); (241, 240, 255, 9)] !! 1%nat
     = Some (255, 255, 255, 0))
  ∧ (¬ (240 < 241 ∧ 240 < 240 ∧ 240 < 255) →
     removeBackground [(241, 241, 241, 7); (241, 240, 255, 9)] !! 1%nat
     = Some (241, 240, 255, 9)).
Proof.
  apply (compositor_pointwise Demo.white_done
           [(241, 241, 241, 7); (241, 240, 255, 9)] 1%nat (241, 240, 255, 9)).
  reflexivity.
Defined.

(** * The background classifier *)

(** C6: the classifier looks at the first pixel of the row-major data, the
    pixel at (0, 0), and at nothing else; the background is removable
    exactly when its three colour channels are all strictly above 240; a
    channel at exactly 240 is not background; the alpha of the sampled
    pixel plays no part. *)
Theorem classifier_samples_corner (r g b a : Z) (rest : list pixel) :
  (isRemovableBackground ((r, g, b, a) :: rest) = Some true
   ↔ 240 < r ∧ 240 < g ∧ 240 < b)
  ∧ (isRemovableBackground ((r, g, b, a) :: rest) = Some false
     ↔ r ≤ 240 ∨ g ≤ 240 ∨ b ≤ 240)
  ∧ (∀ a' rest', isRemovableBackground ((r, g, b, a') :: rest')
                 = isRemovableBackground ((r, g, b, a) :: rest))
  ∧ isRemovableBackground ((240, g, b, a) :: rest) = Some false
  ∧ isRemovableBackground ((r, 240, b, a) :: rest) = Some false
  ∧ isRemovableBackground ((r, g, 240, a) :: rest) = Some false.
Proof.
  unfold isRemovableBackground, whiteish, chan0, chan1, chan2. simpl.
  split_and!.
  - split.
    + intros [= H]. rewrite !andb_true_iff, !Z.ltb_lt in H. tauto.
    + intros (? & ? & ?). f_equal. rewrite !andb_true_iff, !Z.ltb_lt. tauto.
  - split.
    + intros [= H]. rewrite !andb_false_iff, !Z.ltb_ge in H. tauto.
    + intros H. f_equal. rewrite !andb_false_iff, !Z.ltb_ge. tauto.
  - done.
  - done.
  - f_equal. rewrite !andb_false_iff, !Z.ltb_ge. lia.
  - f_equal. rewrite !andb_false_iff, !Z.ltb_ge. lia.
Qed.

(** * The content sniffer *)

(** C7: the sniffer sees the first four bytes only; a file beginning with
    FF D8 FF is a JPEG, a file beginning with 89 50 4E 47 is a PNG, anything
    else is unknown, and on an unknown file the iteration does nothing at
    all: no write, no counter, no line on the console. *)
Theorem sniffer_rules (codec : Codec) (p : string) (st : State) (bs : list byte) :
  files st !! p = Some bs →
  read_header p st = (Ok (take 4 bs), st)
  ∧ (∀ bs', take 4 bs' = take 4 bs → classify (take 4 bs') = classify (take 4 bs))
  ∧ (classify (take 4 bs) = JPEG ↔ [xff; xd8; xff] `prefix_of` bs)
  ∧ (classify (take 4 bs) = PNG ↔ [x89; x50; x4e; x47] `prefix_of` bs)
  ∧ (classify (take 4 bs) = UNKNOWN ↔
       ¬ [xff; xd8; xff] `prefix_of` bs ∧ ¬ [x89; x50; x4e; x47] `prefix_of` bs)
  ∧ (classify (take 4 bs) = UNKNOWN → iteration codec p st = (Ok tt, st)).
Proof.
  intros Hp. split_and!.
  - unfold read_header. by rewrite Hp.
  - by intros bs' ->.
  - rewrite classify_header. apply classify_JPEG.
  - rewrite classify_header. apply classify_PNG.
  - rewrite classify_header. apply classify_UNKNOWN.
  - intros Hu. exec. by rewrite Hp, Hu.
Qed.

Lemma sniffer_rules_witness :
  let st := mkState Demo.tree [] 0 0 in
  let bs := [x68; x69] in
  read_header "icons/notes.png" st = (Ok (take 4 bs), st)
  ∧ (∀ bs', take 4 bs' = take 4 bs → classify (take 4 bs') = classify (take 4 bs))
  ∧ (classify (take 4 bs) = JPEG ↔ [xff; xd8; xff] `prefix_of` bs)
  ∧ (classify (take 4 bs) = PNG ↔ [x89; x50; x4e; x47] `prefix_of` bs)
  ∧ (classify (take 4 bs) = UNKNOWN ↔
       ¬ [xff; xd8; xff] `prefix_of` bs ∧ ¬ [x89; x50; x4e; x47] `prefix_of` bs)
  ∧ (classify (take 4 bs) = UNKNOWN →
     iteration Demo.codec "icons/notes.png" st = (Ok tt, st)).
Proof.
  apply (sniffer_rules Demo.codec "icons/notes.png" (mkState Demo.tree [] 0 0)
           [x68; x69]).
  vm_compute. reflexivity.
Defined.

(** * Files the pass leaves alone *)

(** An iteration that leaves a file's bytes in place keeps them through
    the whole walk, when the file carries the [.png] extension. *)
Lemma walk_keeps_bytes (codec : Codec) (l : list string) (st : State)
    (p : string) (bs : list byte) :
  endswith p ".png" = true →
  (∀ st', files st' !! p = Some bs →
          files (iteration codec p st').2 !! p = Some bs) →
  files st !! p = Some bs →
  files (walk codec l st) !! p = Some bs.
Proof.
  intros Hpng Hstay Hp. induction l as [|q l IH] using rev_ind; [done|].
  rewrite walk_snoc. destruct (decide (p = q)) as [<-|Hne].
  - by apply Hstay.
  - rewrite iteration_frame; [done | done | by apply sidecar_not_png].
Qed.

(** C9: a file that is already a PNG and either has an alpha channel or has
    a corner pixel with a colour channel at or below 240 is not written and
    increments no counter: the iteration returns the state it was given,
    and after a whole run the file holds the bytes it held before. *)
Theorem ineligible_png_untouched (codec : Codec) (p : string) (bs : list byte)
    (img : Image) :
  png_magic `prefix_of` bs →
  pil_open codec bs = Some img →
  (has_alpha (mode img) = true
   ∨ ∃ px bg, raster img = Some px ∧ px !! 0%nat = Some bg
              ∧ (chan0 bg ≤ 240 ∨ chan1 bg ≤ 240 ∨ chan2 bg ≤ 240)) →
  (∀ st, files st !! p = Some bs → iteration codec p st = (Ok tt, st))
  ∧ (∀ root_dir fs, fs !! p = Some bs → endswith p ".png" = true →
       files (run codec root_dir fs).2 !! p = Some bs).
Proof.
  intros Hmagic Hopen Hinel.
  assert (∀ st, files st !! p = Some bs → iteration codec p st = (Ok tt, st)) as Hit.
  { intros st Hp.
    assert (classify (take 4 bs) = PNG) as Hc.
    { rewrite classify_header. by apply classify_PNG. }
    exec. rewrite Hp, Hc. simpl. rewrite Hp, Hopen. simpl.
    destruct Hinel as [Ha | (px & bg & Hr & Hbg & Hle)].
    - destruct (mode img); try done.
    - case_bool_decide as Hm; [|done]. rewrite Hr. simpl.
      unfold isRemovableBackground. rewrite list_lookup_fmap, Hbg. simpl.
      rewrite Hm. unfold to_rgba, whiteish, chan0, chan1, chan2 in *. simpl.
      replace ((240 <? bg.1.1.1) && (240 <? bg.1.1.2) && (240 <? bg.1.2))
        with false; [done|].
      symmetry. rewrite !andb_false_iff, !Z.ltb_ge. tauto. }
  split; [done|].
  intros root_dir fs Hp Hpng. rewrite run_unfold. simpl.
  apply walk_keeps_bytes; [done | | done].
  intros st' Hp'. by rewrite Hit.
Qed.

Lemma ineligible_png_untouched_witness :
  (∀ st, files st !! "icons/icon_c.png" = Some (Demo.png x11) →
         iteration Demo.codec "icons/icon_c.png" st = (Ok tt, st))
  ∧ (∀ root_dir fs, fs !! "icons/icon_c.png" = Some (Demo.png x11) →
       endswith "icons/icon_c.png" ".png" = true →
       files (run Demo.codec root_dir fs).2 !! "icons/icon_c.png"
       = Some (Demo.png x11)).
Proof.
  apply (ineligible_png_untouched Demo.codec "icons/icon_c.png" (Demo.png x11)
           Demo.white_done).
  - by exists [x11].
  - vm_compute. reflexivity.
  - left. reflexivity.
Defined.

(** * Sidecar files *)



(** The repair of [dark.png] in the demo tree: the corner is not near-white,
    nothing is made transparent, and the sidecar is removed all the same. *)
Example jpeg_repair_without_transparency :
  let st := mkState Demo.tree [] 0 0 in
  let st' := (process_file Demo.codec "icons/units/dark.png" st).2 in
  is_Some (files st !! sidecar "icons/units/dark.png")
  ∧ files st' !! sidecar "icons/units/dark.png" = None
  ∧ files st' !! "icons/units/dark.png" = Some (Demo.png x02)
  ∧ transparent_count st' = 0%nat
  ∧ console st' = [DetectedJPEG "icons/units/dark.png";
                   ConvertedToPNG "icons/units/dark.png";
                   RemovedImport "icons/units/dark.png.import"].
Proof. vm_compute. split_and!; eauto. Qed.

(** [make_transparent] returns [True] exactly when it has saved the
    rewritten image and printed its line; when it returns [False] it has
    done nothing. *)
Lemma make_transparent_true (codec : Codec) (img : Image) (p : string) (st st' : State) :
  make_transparent codec img p st = (Ok true, st') →
  ∃ px bs,
    raster img = Some px
    ∧ pil_encode_png codec
        (mkImage RGBA (size img)
           (Some (removeBackground (map (to_rgba (mode img)) px)))) = Some bs
    ∧ st' = mkState (<[p := bs]> (files st))
                    (console st ++ [RemovedWhiteBackground p])
                    (fixed_count st) (transparent_count st).
Proof.
  exec. repeat step_match; intros; simplify_eq. eauto.
Qed.

Lemma make_transparent_false (codec : Codec) (img : Image) (p : string) (st st' : State) :
  make_transparent codec img p st = (Ok false, st') → st' = st.
Proof.
  exec. repeat step_match; intros; by simplify_eq.
Qed.




(** * Idempotence *)

(** C3: a second run right after a first one leaves every file as the first
    run left it, and both of its counters are zero.  The imaging library is
    taken to be a round-trip codec for PNG. *)
Theorem fix_icons_idempotent (codec : Codec) (root_dir : string)
    (fs : gmap string (list byte)) :
  png_roundtrip codec →
  let first := run codec root_dir fs in
  let second := run codec root_dir (files first.2) in
  second.1 = Ok tt
  ∧ files second.2 = files first.2
  ∧ fixed_count second.2 = 0%nat
  ∧ transparent_count second.2 = 0%nat.
Proof.
  intros Hrt. simpl. rewrite !run_unfold. simpl.
  set (w := walk codec (glob_png root_dir fs) (mkState fs [Scanning root_dir] 0 0)).
  split; [done|].
  apply (walk_quiet codec (glob_png root_dir (files w))
           (mkState (files w) [Scanning root_dir] 0 0)).
  simpl. apply Forall_forall. intros p Hp.
  assert (p ∈ glob_png root_dir fs) as Hp0.
  { apply glob_png_spec in Hp as (Hs & ? & ?). apply glob_png_spec.
    split; [|done]. by apply (walk_no_new_file codec) in Hs. }
  assert (Forall (λ q, endswith q ".png" = true) (glob_png root_dir fs)) as Hpng.
  { apply Forall_forall. intros q Hq%glob_png_spec. tauto. }
  pose proof (walk_settles codec (glob_png root_dir fs)
                (mkState fs [Scanning root_dir] 0 0) Hrt Hpng) as Hall.
  rewrite Forall_forall in Hall. by apply Hall.
Qed.

Lemma fix_icons_idempotent_witness :
  let first := run Demo.codec "icons" Demo.tree in
  let second := run Demo.codec "icons" (files first.2) in
  second.1 = Ok tt
  ∧ files second.2 = files first.2
  ∧ fixed_count second.2 = 0%nat
  ∧ transparent_count second.2 = 0%nat.
Proof.
  apply (fix_icons_idempotent Demo.codec "icons" Demo.tree).
  exact demo_codec_roundtrip.
Defined.

(** The first run on the demo tree is not a no-op: it repairs two files and
    removes two backgrounds. *)
Example demo_first_run :
  let first := run Demo.codec "icons" Demo.tree in
  fixed_count first.2 = 2%nat ∧ transparent_count first.2 = 2%nat
  ∧ files first.2 !! "icons/icon_b.png" = Some (Demo.png x11)
  ∧ files first.2 !! "icons/icon_c.png" = Some (Demo.png x11)
  ∧ files first.2 !! "elsewhere/icon.png" = Some (Demo.png x01).
Proof. vm_compute. done. Qed.

(** * Where the colour mode is checked *)


(** The same greyscale image stored as a PNG is skipped by the PNG branch. *)
Example png_branch_skips_greyscale :
  let st := mkState {[ "icons/grey.png" := Demo.png x03 ]} [] 0 0 in
  iteration Demo.codec "icons/grey.png" st = (Ok tt, st).
Proof. vm_compute. reflexivity. Qed.



(** * Exceptions *)





(** * Further properties of the pass *)

(** ** The compositor *)

(** X1: The compositor is idempotent, and in what it returns every near-white
    pixel is the transparent white it writes: no near-white pixel keeps an
    alpha of its own. *)
Theorem compositor_idempotent (datas : list pixel) :
  removeBackground (removeBackground datas) = removeBackground datas
  ∧ ∀ out, out ∈ removeBackground datas →
      240 < chan0 out ∧ 240 < chan1 out ∧ 240 < chan2 out →
      out = (255, 255, 255, 0).
Proof.
  split.
  - unfold removeBackground. rewrite map_map. apply map_ext. intros item.
    destruct (whiteish item) eqn:E; [done | by rewrite E].
  - intros out Hin Hw%whiteish_spec. unfold removeBackground in Hin.
    apply list_elem_of_fmap in Hin as (item & -> & _).
    destruct (whiteish item) eqn:E; [done | congruence].
Qed.

(** ** [make_transparent] at the edges *)

(** X2: An image without a pixel makes [datas[0]] raise, and an image whose
    raster does not decode makes [convert] raise; in both cases nothing has
    been written or printed. *)
Theorem make_transparent_no_pixel (codec : Codec) (img : Image) (p : string)
    (st : State) :
  raster img = None ∨ raster img = Some [] →
  make_transparent codec img p st
  = (Raise (if raster img is Some _ then IndexError else DecodeError), st).
Proof.
  intros [Hr | Hr]; unfold make_transparent, bind, Image_convert_RGBA;
    rewrite Hr; reflexivity.
Qed.

Lemma make_transparent_no_pixel_witness :
  make_transparent Demo.codec (mkImage RGB (0, 0)%nat (Some [])) "icons/icon_a.png"
    (mkState Demo.tree [] 0 0)
  = (Raise IndexError, mkState Demo.tree [] 0 0).
Proof.
  apply (make_transparent_no_pixel Demo.codec (mkImage RGB (0, 0)%nat (Some []))).
  right. reflexivity.
Defined.



(** ** One opaque PNG with a near-white corner, end to end *)



(** ** Format repair *)

(** X4: With a round-trip codec, a file that began with the JPEG signature and
    whose iteration ran to its end begins with the PNG signature afterwards
    and opens as an image whose raster decodes. *)
Theorem format_repair_correct (codec : Codec) (p : string) (st st' : State)
    (bs : list byte) :
  png_roundtrip codec →
  files st !! p = Some bs →
  jpeg_magic `prefix_of` bs →
  process_file codec p st = (Ok tt, st') →
  ∃ bs' img',
    files st' !! p = Some bs'
    ∧ png_magic `prefix_of` bs'
    ∧ classify (take 4 bs') = PNG
    ∧ pil_open codec bs' = Some img'
    ∧ is_Some (raster img').
Proof.
  intros Hrt Hp Hmagic.
  assert (classify (take 4 bs) = JPEG) as Hc.
  { rewrite classify_header. by apply classify_JPEG. }
  pose proof (sidecar_ne p) as Hs. unfold sidecar in Hs.
  assert (∀ img b, is_Some (raster img) → pil_encode_png codec img = Some b →
            png_magic `prefix_of` b ∧ classify (take 4 b) = PNG
            ∧ pil_open codec b = Some img ∧ is_Some (raster img)) as Hfacts.
  { intros img b Hr He. destruct (Hrt img b Hr He) as [? ?].
    destruct (roundtrip_facts codec img b Hrt Hr He) as [? ?]. done. }
  exec. rewrite Hp, Hc. simpl. rewrite ?Hp.
  repeat step_match; intros; simplify_eq/=;
    rewrite ?lookup_delete_ne, ?lookup_insert_eq by done;
    eexists _, _; (split; [reflexivity|]);
    (eapply Hfacts; [|eassumption]); simpl; eauto.
Qed.

Lemma format_repair_correct_witness :
  let st' := (process_file Demo.codec "icons/icon_b.png"
                (mkState Demo.tree [] 0 0)).2 in
  ∃ bs' img',
    files st' !! "icons/icon_b.png" = Some bs'
    ∧ png_magic `prefix_of` bs'
    ∧ classify (take 4 bs') = PNG
    ∧ pil_open Demo.codec bs' = Some img'
    ∧ is_Some (raster img').
Proof.
  apply (format_repair_correct Demo.codec "icons/icon_b.png"
           (mkState Demo.tree [] 0 0) _ (Demo.jpg x01)).
  - exact demo_codec_roundtrip.
  - vm_compute. reflexivity.
  - by exists [xe0; x01].
  - vm_compute. reflexivity.
Defined.

(** ** Files that do not open *)

(** X5: A file carrying the JPEG or the PNG signature that [Image.open] cannot
    identify is reported and left as found: the tree and the counters are
    unchanged, and the console gains the error line (after the detection
    line, for a JPEG signature). *)
Theorem unidentified_file_left_as_found (codec : Codec) (p : string) (st : State)
    (bs : list byte) :
  files st !! p = Some bs →
  classify (take 4 bs) ≠ UNKNOWN →
  pil_open codec bs = None →
  iteration codec p st
  = (Ok tt,
     mkState (files st)
       (console st
        ++ (if classify (take 4 bs) is JPEG then [DetectedJPEG p] else [])
        ++ [ErrorProcessing p UnidentifiedImageError])
       (fixed_count st) (transparent_count st)).
Proof.
  intros Hp Hc Hopen. exec. rewrite Hp. simpl.
  destruct (classify (take 4 bs)); simpl; [| |done].
  - rewrite Hp, Hopen. simpl. by rewrite <- app_assoc.
  - by rewrite Hp, Hopen.
Qed.

Lemma unidentified_file_left_as_found_witness :
  let p := "icons/broken.png" in
  let st := mkState {[ p := Demo.jpg xff ]} [] 0 1 in
  iteration Demo.codec p st
  = (Ok tt,
     mkState (files st)
       (console st
        ++ (if classify (take 4 (Demo.jpg xff)) is JPEG
            then [DetectedJPEG p] else [])
        ++ [ErrorProcessing p UnidentifiedImageError])
       (fixed_count st) (transparent_count st)).
Proof.
  apply (unidentified_file_left_as_found Demo.codec "icons/broken.png"
           (mkState {[ "icons/broken.png" := Demo.jpg xff ]} [] 0 1)
           (Demo.jpg xff)).
  - vm_compute. reflexivity.
  - vm_compute. discriminate.
  - vm_compute. reflexivity.
Defined.

(** ** The summary and the console *)

Lemma count_lines_app (f : Line → bool) (a b : list Line) :
  count_lines f (a ++ b) = (count_lines f a + count_lines f b)%nat.
Proof. unfold count_lines. by rewrite List.filter_app, length_app. Qed.

(** What one iteration adds to the console and to the counters. *)
Lemma iteration_counts (codec : Codec) (p : string) (st : State) :
  ∃ new,
    console (iteration codec p st).2 = console st ++ new
    ∧ transparent_count (iteration codec p st).2
      = (transparent_count st + count_lines is_removed_line new)%nat
    ∧ (fixed_count st ≤ fixed_count (iteration codec p st).2)%nat
    ∧ (fixed_count (iteration codec p st).2
       ≤ fixed_count st + count_lines is_converted_line new)%nat
    ∧ (fixed_count (iteration codec p st).2 ≤ S (fixed_count st))%nat
    ∧ (count_lines is_removed_line new ≤ 1)%nat.
Proof.
  exec.
  repeat step_match; eexists;
    (split; [rewrite <- ?app_assoc; try reflexivity;
             by rewrite (right_id_L [] (++))|]);
    unfold count_lines; simpl; lia.
Qed.

Lemma walk_counts (codec : Codec) (l : list string) (st : State) :
  ∃ new,
    console (walk codec l st) = console st ++ new
    ∧ transparent_count (walk codec l st)
      = (transparent_count st + count_lines is_removed_line new)%nat
    ∧ (fixed_count (walk codec l st)
       ≤ fixed_count st + count_lines is_converted_line new)%nat
    ∧ (fixed_count (walk codec l st) ≤ fixed_count st + length l)%nat
    ∧ (count_lines is_removed_line new ≤ length l)%nat.
Proof.
  induction l as [|p l IH] using rev_ind.
  - exists []. simpl. rewrite (right_id_L [] (++)). vm_compute count_lines.
    split_and!; (done || lia).
  - destruct IH as (new & Hc & Ht & Hf & Hfl & Hn).
    rewrite walk_snoc.
    destruct (iteration_counts codec p (walk codec l st))
      as (new' & Hc' & Ht' & _ & Hf' & Hfl' & Hn').
    exists (new ++ new'). rewrite Hc', Hc, Ht', Ht, !count_lines_app, length_app.
    simpl. split_and!; [by rewrite app_assoc | lia..].
Qed.


(** X7: The summary agrees with the console: the transparency count is the
    number of [Removed white background] lines, the repair count is at most
    the number of [Converted to valid PNG] lines (a repair whose iteration
    raised afterwards is printed and not counted), and neither exceeds the
    number of files the pattern matched. *)
Theorem summary_matches_console (codec : Codec) (root_dir : string)
    (fs : gmap string (list byte)) :
  transparent_count (run codec root_dir fs).2
  = count_lines is_removed_line (console (run codec root_dir fs).2)
  ∧ (fixed_count (run codec root_dir fs).2
     ≤ count_lines is_converted_line (console (run codec root_dir fs).2))%nat
  ∧ (transparent_count (run codec root_dir fs).2
     ≤ length (glob_png root_dir fs))%nat
  ∧ (fixed_count (run codec root_dir fs).2
     ≤ length (glob_png root_dir fs))%nat.
Proof.
  rewrite run_unfold. simpl.
  destruct (walk_counts codec (glob_png root_dir fs)
              (mkState fs [Scanning root_dir] 0 0))
    as (new & Hc & Ht & Hf & Hfl & Hn).
  simpl in *. rewrite Hc, Ht. rewrite !count_lines_app.
  change (Scanning root_dir :: new) with ([Scanning root_dir] ++ new).
  rewrite !count_lines_app.
  change (count_lines is_removed_line [Scanning root_dir]) with 0%nat.
  change (count_lines is_converted_line [Scanning root_dir]) with 0%nat.
  change (count_lines is_removed_line [Finished _ _]) with 0%nat.
  change (count_lines is_converted_line [Finished _ _]) with 0%nat.
  split_and!; lia.
Qed.

(** ** What a run leaves alone *)







Lemma walk_keeps_png (codec : Codec) (l : list string) (st : State) (q : string) :
  endswith q ".png" = true →
  is_Some (files st !! q) → is_Some (files (walk codec l st) !! q).
Proof.
  intros Hpng Hq. induction l as [|p l IH] using rev_ind; [done|].
  rewrite walk_snoc. destruct (decide (q = p)) as [->|Hne].
  - by apply iteration_keeps.
  - rewrite iteration_frame; [done | done | by apply sidecar_not_png].
Qed.

(** X10: A run creates no file, and it removes no file whose name ends in
    [.png]: the only files that can disappear are sidecars. *)
Theorem assets_neither_created_nor_removed (codec : Codec) (root_dir : string)
    (fs : gmap string (list byte)) (q : string) :
  (is_Some (files (run codec root_dir fs).2 !! q) → is_Some (fs !! q))
  ∧ (endswith q ".png" = true → is_Some (fs !! q) →
     is_Some (files (run codec root_dir fs).2 !! q)).
Proof.
  rewrite run_unfold. simpl. split.
  - apply walk_no_new_file.
  - intros Hpng Hq. by apply walk_keeps_png.
Qed.

(** ** The order of the walk *)

Lemma sidecar_inj (p q : string) : sidecar p = sidecar q → p = q.
Proof.
  unfold sidecar. intros H.
  apply (f_equal String.list_ascii_of_string) in H.
  rewrite !list_ascii_of_string_app in H. apply app_inv_tail in H.
  apply (f_equal String.string_of_list_ascii) in H.
  by rewrite !String.string_of_list_ascii_of_string in H.
Qed.

(** What an iteration does to a file, to its sidecar and to the counters is
    decided by what the file and the sidecar hold. *)
Lemma iteration_two_states (codec : Codec) (p : string) (st1 st2 : State) :
  files st1 !! p = files st2 !! p →
  files st1 !! sidecar p = files st2 !! sidecar p →
  files (iteration codec p st1).2 !! p = files (iteration codec p st2).2 !! p
  ∧ files (iteration codec p st1).2 !! sidecar p
    = files (iteration codec p st2).2 !! sidecar p
  ∧ (fixed_count (iteration codec p st1).2 + fixed_count st2
     = fixed_count (iteration codec p st2).2 + fixed_count st1)%nat
  ∧ (transparent_count (iteration codec p st1).2 + transparent_count st2
     = transparent_count (iteration codec p st2).2 + transparent_count st1)%nat.
Proof.
  unfold sidecar. intros Hp Hsc.
  assert (p ≠ p +:+ ".import") as Hs.
  { intros E. by apply (sidecar_ne p). }
  exec. rewrite Hp.
  repeat (rewrite ?lookup_insert_eq, ?lookup_delete_eq;
          rewrite ?lookup_insert_ne by done; rewrite ?Hsc; step_match);
    rewrite ?lookup_delete_eq, ?lookup_delete_ne, ?lookup_insert_eq by done;
    rewrite ?lookup_insert_ne by done; rewrite ?Hp, ?Hsc;
    split_and!; try done; try lia;
    symmetry; by apply eq_None_not_Some.
Qed.

(** An iteration treats two states with the same tree and counters alike,
    whatever their consoles hold. *)
Lemma iteration_same_outcome (codec : Codec) (p : string) (st1 st2 : State) :
  same_outcome st1 st2 →
  same_outcome (iteration codec p st1).2 (iteration codec p st2).2.
Proof.
  intros (Hf & Hc & Ht).
  destruct (iteration_two_states codec p st1 st2) as (Hp & Hsc & Hfc & Htc);
    [by rewrite Hf | by rewrite Hf |].
  split_and!; [|lia..].
  apply map_eq. intros k.
  destruct (decide (k = p)) as [->|Hkp]; [done|].
  destruct (decide (k = sidecar p)) as [->|Hks]; [done|].
  rewrite !iteration_frame by done. by rewrite Hf.
Qed.

Lemma walk_same_outcome (codec : Codec) (l : list string) (st1 st2 : State) :
  same_outcome st1 st2 →
  same_outcome (walk codec l st1) (walk codec l st2).
Proof.
  revert st1 st2. induction l as [|p l IH]; intros st1 st2 H; [done|].
  simpl. apply IH. by apply iteration_same_outcome.
Qed.

(** Two iterations on different files commute, up to the console. *)
Lemma iteration_commute (codec : Codec) (p q : string) (st : State) :
  endswith p ".png" = true → endswith q ".png" = true → p ≠ q →
  same_outcome (iteration codec q (iteration codec p st).2).2
               (iteration codec p (iteration codec q st).2).2.
Proof.
  intros Hp Hq Hne.
  assert (q ≠ sidecar p) as Hqp by by apply sidecar_not_png.
  assert (p ≠ sidecar q) as Hpq by by apply sidecar_not_png.
  assert (sidecar p ≠ sidecar q) as Hss by (intros E; by apply sidecar_inj in E).
  pose proof (sidecar_ne p) as Hsp. pose proof (sidecar_ne q) as Hsq.
  destruct (iteration_two_states codec p st (iteration codec q st).2)
    as (Hp1 & Hp2 & Hp3 & Hp4); [by rewrite iteration_frame..|].
  destruct (iteration_two_states codec q st (iteration codec p st).2)
    as (Hq1 & Hq2 & Hq3 & Hq4); [by rewrite iteration_frame..|].
  split_and!; [|lia..].
  apply map_eq. intros k.
  destruct (decide (k = p)) as [->|Hkp].
  { rewrite (iteration_frame codec q p) by done. done. }
  destruct (decide (k = q)) as [->|Hkq].
  { rewrite (iteration_frame codec p q) by done. done. }
  destruct (decide (k = sidecar p)) as [->|Hksp].
  { rewrite (iteration_frame codec q (sidecar p)) by done. done. }
  destruct (decide (k = sidecar q)) as [->|Hksq].
  { rewrite (iteration_frame codec p (sidecar q)) by done. done. }
  by rewrite !iteration_frame.
Qed.

(** X11: The tree and the counters the loop ends with do not depend on the
    order in which the pattern lists the files. *)
Theorem walk_order_irrelevant (codec : Codec) (l l' : list string) (st : State) :
  l ≡ₚ l' →
  Forall (λ p, endswith p ".png" = true) l →
  same_outcome (walk codec l st) (walk codec l' st).
Proof.
  intros Hperm. revert st.
  induction Hperm as [|x l l' _ IH|x y l|l l' l'' Hperm1 IH1 _ IH2];
    intros st Hpng.
  - done.
  - simpl. apply IH. by apply Forall_cons_1 in Hpng as [_ ?].
  - simpl. apply walk_same_outcome.
    apply Forall_cons_1 in Hpng as [Hy [Hx _]%Forall_cons_1].
    destruct (decide (x = y)) as [->|Hne]; [done|].
    by apply iteration_commute.
  - destruct (IH1 st Hpng) as (? & ? & ?).
    destruct (IH2 st) as (? & ? & ?); [by rewrite <- Hperm1|].
    split_and!; congruence.
Qed.

Lemma walk_order_irrelevant_witness :
  same_outcome
    (walk Demo.codec ["icons/icon_a.png"; "icons/icon_b.png"; "icons/units/print.png"]
       (mkState Demo.tree [] 0 0))
    (walk Demo.codec ["icons/units/print.png"; "icons/icon_b.png"; "icons/icon_a.png"]
       (mkState Demo.tree [] 0 0)).
Proof.
  apply (walk_order_irrelevant Demo.codec
           ["icons/icon_a.png"; "icons/icon_b.png"; "icons/units/print.png"]
           ["icons/units/print.png"; "icons/icon_b.png"; "icons/icon_a.png"]).
  - apply (Permutation_rev
             ["icons/icon_a.png"; "icons/icon_b.png"; "icons/units/print.png"]).
  - repeat constructor.
Defined.


(** * The ammunition rebalance *)

(** ** Heavy weapons *)

Lemma string_prefix_spec (kw s : string) :
  String.prefix kw s = true ↔ ∃ b, s = kw +:+ b.
Proof.
  revert s. induction kw as [|c kw IH]; intros s.
  - split; [intros _; by exists s | by destruct s].
  - destruct s as [|d s]; simpl.
    + split; [done | by intros [b Hb]].
    + destruct (Ascii.ascii_dec c d) as [->|Hne].
      * rewrite IH. split; intros [b Hb]; exists b.
        -- simpl. by rewrite Hb.
        -- simpl in Hb. by injection Hb.
      * split; [done | intros [b Hb]; simpl in Hb; by injection Hb].
Qed.

Lemma contains_unfold (kw s : string) :
  Rebalance.contains kw s
  = String.prefix kw s
    || match s with
       | EmptyString => false
       | String _ s' => Rebalance.contains kw s'
       end.
Proof. by destruct s. Qed.

Lemma contains_spec (kw s : string) :
  Rebalance.contains kw s = true ↔ ∃ a b, s = a +:+ kw +:+ b.
Proof.
  induction s as [|d s IH]; rewrite contains_unfold.
  - rewrite orb_false_r, string_prefix_spec. split.
    + intros [b Hb]. by exists "", b.
    + intros (a & b & Hab). destruct a; [by exists b|done].
  - rewrite orb_true_iff, IH, string_prefix_spec. split.
    + intros [[b Hb] | (a & b & Hab)].
      * by exists "", b.
      * exists (String d a), b. simpl. by rewrite Hab.
    + intros (a & b & Hab). destruct a as [|c a]; simpl in Hab.
      * left. by exists b.
      * right. exists a, b. by injection Hab.
Qed.

Lemma is_heavy_from_spec (keywords : list string) (wid : string) :
  Rebalance.is_heavy_from keywords wid = true ↔
    (∃ kw, kw ∈ keywords ∧ Rebalance.contains kw wid = true)
    ∧ (Rebalance.contains "rotary" wid = true →
       Rebalance.contains "missile" wid = true).
Proof.
  induction keywords as [|kw rest IH]; simpl.
  - split; [done | by intros [(kw & Hin%elem_of_nil & _) _]].
  - destruct (Rebalance.contains kw wid) eqn:Hkw.
    + destruct (Rebalance.contains "rotary" wid),
               (Rebalance.contains "missile" wid); simpl;
        split; try done; try (intros _; split; [exists kw; split; [by left|done] | done]).
      intros [_ H]. by specialize (H eq_refl).
    + rewrite IH. split; intros [(k & Hin & Hk) Hr]; (split; [|done]).
      * exists k. split; [by right | done].
      * exists k. split; [|done].
        apply elem_of_cons in Hin as [->|?]; [congruence | done].
Qed.

(** X12: A weapon is heavy exactly when its lower-cased name contains one of the
    nine keywords and does not contain "rotary" without "missile".  Which
    keyword matches first plays no part. *)
Theorem is_heavy_spec (weapon_id : string) :
  Rebalance.is_heavy weapon_id = true ↔
    (∃ kw a b, kw ∈ Rebalance.HEAVY_KEYWORDS
               ∧ Rebalance.lower weapon_id = a +:+ kw +:+ b)
    ∧ ((∃ a b, Rebalance.lower weapon_id = a +:+ "rotary" +:+ b) →
       ∃ a b, Rebalance.lower weapon_id = a +:+ "missile" +:+ b).
Proof.
  unfold Rebalance.is_heavy. rewrite is_heavy_from_spec.
  rewrite <- !contains_spec. split.
  - intros [(kw & Hin & Hk) Hr]. split; [|done].
    apply contains_spec in Hk as (a & b & Hab). by exists kw, a, b.
  - intros [(kw & a & b & Hin & Hab) Hr]. split; [|done].
    exists kw. split; [done|]. apply contains_spec. by exists a, b.
Qed.





(** ** One weapon, and the loop over the weapons *)

Section RebalanceValues.
Context {F : Type} (eq_int : F → Z → bool).

Lemma assoc_set_eq (key : string) (v : Rebalance.PyVal F)
    (d : list (string * Rebalance.PyVal F)) :
  Rebalance.assoc key (Rebalance.assoc_set key v d) = Some v.
Proof.
  induction d as [|[k x] d IH]; simpl.
  - by rewrite decide_True.
  - destruct (decide (k = key)) as [->|Hne]; simpl.
    + by rewrite decide_True.
    + by rewrite decide_False.
Qed.

Lemma assoc_set_ne (key k : string) (v : Rebalance.PyVal F)
    (d : list (string * Rebalance.PyVal F)) :
  k ≠ key →
  Rebalance.assoc k (Rebalance.assoc_set key v d) = Rebalance.assoc k d.
Proof.
  intros Hne. induction d as [|[k' x] d IH]; simpl.
  - by rewrite decide_False.
  - destruct (decide (k' = key)) as [->|Hne']; simpl.
    + by rewrite !decide_False.
    + by rewrite IH.
Qed.

Lemma assoc_set_keys (key : string) (v : Rebalance.PyVal F)
    (d : list (string * Rebalance.PyVal F)) :
  is_Some (Rebalance.assoc key d) →
  (Rebalance.assoc_set key v d).*1 = d.*1.
Proof.
  induction d as [|[k x] d IH]; simpl.
  - by intros [? ?].
  - destruct (decide (k = key)) as [->|Hne]; simpl; [done|].
    intros H. f_equal. by apply IH.
Qed.

(** A weapon the body has gone over is left alone by a second pass, and a
    weapon for which nothing was printed is unchanged. *)
Lemma rebalance_weapon_again (weapon weapon' : Rebalance.PyVal F)
    (line : option (Rebalance.Line (F := F))) :
  Rebalance.rebalance_weapon eq_int weapon = inr (weapon', line) →
  (line = None → weapon' = weapon)
  ∧ Rebalance.rebalance_weapon eq_int weapon' = inr (weapon', None).
Proof.
  unfold Rebalance.rebalance_weapon, Rebalance.py_getitem.
  destruct weapon as [| | | | | |d]; try done.
  destruct (Rebalance.assoc "weapon_id" d) as [wid|] eqn:Hwid; [|done].
  destruct wid as [| | | |wid| |]; try done.
  set (target := if Rebalance.is_heavy wid
                 then Rebalance.AMMO_HEAVY else Rebalance.AMMO_STANDARD).
  destruct (Rebalance.py_ne_int eq_int
              (default (Rebalance.PyInt 999) (Rebalance.assoc "max_ammo" d)) target)
    eqn:Hne; intros [= <- <-]; (split; [done|]).
  - rewrite assoc_set_ne by done. rewrite Hwid, assoc_set_eq. simpl.
    fold target. by rewrite Z.eqb_refl.
  - rewrite Hwid. fold target. by rewrite Hne.
Qed.

(** X14: When the body of the loop does not raise, the weapon was a dictionary
    with a string under [weapon_id]; afterwards its [max_ammo] equals 10 for
    a heavy weapon and 20 for any other, every other key holds what it
    held, a line is printed exactly when the value differed, and a second
    pass over the weapon changes and prints nothing. *)
Theorem rebalance_weapon_post (weapon weapon' : Rebalance.PyVal F)
    (line : option (Rebalance.Line (F := F))) :
  Rebalance.rebalance_weapon eq_int weapon = inr (weapon', line) →
  ∃ d d' wid,
    weapon = Rebalance.PyDict d ∧ weapon' = Rebalance.PyDict d'
    ∧ Rebalance.assoc "weapon_id" d = Some (Rebalance.PyStr wid)
    ∧ (∀ k, k ≠ "max_ammo" → Rebalance.assoc k d' = Rebalance.assoc k d)
    ∧ Rebalance.py_ne_int eq_int (Rebalance.ammo_of d') (Rebalance.target_of wid) = false
    ∧ (is_Some line ↔ Rebalance.py_ne_int eq_int (Rebalance.ammo_of d) (Rebalance.target_of wid) = true)
    ∧ (line = None → weapon' = weapon)
    ∧ Rebalance.rebalance_weapon eq_int weapon' = inr (weapon', None).
Proof.
  unfold Rebalance.rebalance_weapon, Rebalance.py_getitem.
  destruct weapon as [| | | | | |d]; try done.
  destruct (Rebalance.assoc "weapon_id" d) as [wid|] eqn:Hwid; [|done].
  destruct wid as [| | | |wid| |]; try done.
  fold (Rebalance.ammo_of d). fold (Rebalance.target_of wid).
  destruct (Rebalance.py_ne_int eq_int (Rebalance.ammo_of d) (Rebalance.target_of wid)) eqn:Hne;
    intros [= <- <-].
  - exists d, (Rebalance.assoc_set "max_ammo" (Rebalance.PyInt (Rebalance.target_of wid)) d), wid.
    assert (Rebalance.py_ne_int eq_int
              (Rebalance.ammo_of (Rebalance.assoc_set "max_ammo"
                          (Rebalance.PyInt (Rebalance.target_of wid)) d))
              (Rebalance.target_of wid) = false) as Hdone.
    { unfold Rebalance.ammo_of. rewrite assoc_set_eq. simpl. by rewrite Z.eqb_refl. }
    split_and!; try done.
    + intros k Hk. by apply assoc_set_ne.
    + rewrite assoc_set_ne by done. rewrite Hwid.
      fold (Rebalance.ammo_of (Rebalance.assoc_set "max_ammo"
                       (Rebalance.PyInt (Rebalance.target_of wid)) d)).
      fold (Rebalance.target_of wid). by rewrite Hdone.
  - exists d, d, wid. split_and!; try done.
    + rewrite Hne. split; [by intros [? ?] | done].
    + rewrite Hwid. fold (Rebalance.ammo_of d). fold (Rebalance.target_of wid). by rewrite Hne.
Qed.

Lemma rebalance_weapons_again (items items' : list (Rebalance.PyVal F))
    (lines : list Rebalance.Line) (updated : bool) :
  Rebalance.rebalance_weapons eq_int items = (lines, inr (items', updated)) →
  Rebalance.rebalance_weapons eq_int items' = ([], inr (items', false))
  ∧ length items' = length items
  ∧ (updated = false → items' = items ∧ lines = [])
  ∧ (updated = true → lines ≠ []).
Proof.
  revert items' lines updated.
  induction items as [|w items IH]; intros items' lines updated; simpl.
  - intros [= <- <- <-]. done.
  - destruct (Rebalance.rebalance_weapon eq_int w) as [e|[w' line]] eqn:Hw; [done|].
    destruct (Rebalance.rebalance_weapons eq_int items) as [ls [e|[rest' upd]]] eqn:Hrest;
      [done|].
    intros [= <- <- <-].
    destruct (IH rest' ls upd eq_refl) as (Hagain & Hlen & Hsame & Hupd).
    destruct (rebalance_weapon_again w w' line Hw) as (Hnone & Hw').
    split_and!.
    + simpl. by rewrite Hw', Hagain.
    + simpl. by rewrite Hlen.
    + intros [Hl ->]%orb_false_iff. apply bool_decide_eq_false_1 in Hl.
      destruct line as [l|]; [by destruct Hl|].
      destruct (Hsame eq_refl) as [-> ->]. by rewrite Hnone.
    + intros [Hl%bool_decide_eq_true_1 | ->]%orb_true_iff.
      * destruct Hl as [l ->]. done.
      * specialize (Hupd eq_refl). destruct line; [done|]. done.
Qed.

End RebalanceValues.

(** ** One unit file *)

Section RebalanceFile.
Context (lib : Rebalance.JsonLib).

Ltac run_body :=
  unfold Rebalance.process_file, Rebalance.process_file_body,
    Rebalance.print, Rebalance.prints; simpl.

(** What [process_file] does to the disk is decided by what the file
    holds: nothing, or one write of a text on which a further pass writes
    nothing, if the library reads it back. *)
Lemma process_file_two_worlds (p1 p2 : string)
    (w1 w2 : Rebalance.World (Rebalance.pyfloat lib)) :
  Rebalance.disk w1 !! p1 = Rebalance.disk w2 !! p2 →
  (Rebalance.disk (Rebalance.process_file lib p1 w1) = Rebalance.disk w1
   ∧ Rebalance.disk (Rebalance.process_file lib p2 w2) = Rebalance.disk w2)
  ∨ ∃ t,
      is_Some (Rebalance.disk w1 !! p1)
      ∧ Rebalance.disk (Rebalance.process_file lib p1 w1)
        = <[p1 := t]> (Rebalance.disk w1)
      ∧ Rebalance.disk (Rebalance.process_file lib p2 w2)
        = <[p2 := t]> (Rebalance.disk w2)
      ∧ (Rebalance.reads_back lib t → Rebalance.settled_text lib (Some t)).
Proof.
  intros Hsame. run_body. rewrite Hsame.
  destruct (Rebalance.disk w2 !! p2) as [text|]; [|by left].
  destruct (Rebalance.json_load lib text) as [data|]; [|by left].
  destruct (Rebalance.py_contains "weapons" data) as [e|[]] eqn:Hin;
    [by left | | by left].
  destruct (Rebalance.py_getitem data "weapons") as [e|weapons] eqn:Hget;
    [by left|].
  destruct (Rebalance.py_iter weapons) as [e|items] eqn:Hiter; [by left|].
  destruct (Rebalance.rebalance_weapons (Rebalance.float_eq_int lib) items)
    as [lines [e|[items' []]]] eqn:Hloop; simpl; [by left | | by left].
  right. eexists. split; [by eexists|]. split; [reflexivity|].
  split; [reflexivity|].
  intros Hrt p w Hp. run_body. rewrite Hp, (Hrt _ eq_refl).
  destruct data as [| | | | | |d]; try done.
  simpl in Hget. destruct (Rebalance.assoc "weapons" d) as [x|] eqn:Hw; [|done].
  injection Hget as ->. simpl.
  rewrite assoc_set_eq. simpl.
  destruct weapons as [| | | | |l|]; try done.
  - simpl in Hiter. injection Hiter as <-.
    destruct (String.list_ascii_of_string s); simpl in Hloop; [by injection Hloop|done].
  - simpl in Hiter. injection Hiter as ->. simpl.
    destruct (rebalance_weapons_again _ _ _ _ _ Hloop) as (-> & _). done.
  - simpl in Hiter. injection Hiter as <-.
    destruct d0 as [|[k v] d0]; simpl in Hloop; [by injection Hloop|done].
Qed.

Lemma process_file_frame (p q : string) (w : Rebalance.World (Rebalance.pyfloat lib)) :
  q ≠ p →
  Rebalance.disk (Rebalance.process_file lib p w) !! q = Rebalance.disk w !! q.
Proof.
  intros Hq.
  destruct (process_file_two_worlds p p w w eq_refl) as [[-> _] | (t & _ & -> & _)];
    [done | by rewrite lookup_insert_ne].
Qed.

Lemma process_file_keeps (p q : string) (w : Rebalance.World (Rebalance.pyfloat lib)) :
  is_Some (Rebalance.disk (Rebalance.process_file lib p w) !! q)
  ↔ is_Some (Rebalance.disk w !! q).
Proof.
  destruct (process_file_two_worlds p p w w eq_refl) as [[-> _] | (t & Hp & -> & _)];
    [done|].
  destruct (decide (q = p)) as [->|Hne].
  - rewrite lookup_insert_eq. split; eauto.
  - by rewrite lookup_insert_ne.
Qed.

(** After a pass the file holds a text on which a further pass writes
    nothing. *)
Lemma process_file_settles (p : string) (w : Rebalance.World (Rebalance.pyfloat lib)) :
  (∀ t, Rebalance.disk (Rebalance.process_file lib p w) !! p = Some t →
        Rebalance.reads_back lib t) →
  Rebalance.settled_text lib (Rebalance.disk (Rebalance.process_file lib p w) !! p).
Proof.
  intros Hrb.
  destruct (process_file_two_worlds p p w w eq_refl)
    as [[Hsame _] | (t & _ & Hw & _ & Hset)].
  - rewrite Hsame. intros p' w' Hp'.
    destruct (process_file_two_worlds p p' w w') as [[_ ?] | (t & _ & Hw & Hw' & Hset)];
      [done | done |].
    assert (Rebalance.disk w !! p = Some t) as Ht.
    { rewrite <- Hsame, Hw. apply lookup_insert_eq. }
    apply Hset; [|congruence]. apply Hrb. by rewrite Hsame.
  - rewrite Hw, lookup_insert_eq. apply Hset. apply Hrb.
    rewrite Hw. apply lookup_insert_eq.
Qed.

(** X16: An exception in the [try] block, whatever raised it, leaves the disk as
    it was: the file is written only after the loop over the weapons has
    come to its end, so a weapon that raises keeps the whole file from
    being updated, even when lines for earlier weapons were printed.  The
    error line with the path comes last. *)
Theorem process_file_error_leaves_disk (p : string)
    (w : Rebalance.World (Rebalance.pyfloat lib)) (e : Rebalance.Exn) :
  (Rebalance.process_file_body lib p w).2 = Some e →
  Rebalance.disk (Rebalance.process_file lib p w) = Rebalance.disk w
  ∧ ∃ lines,
      Rebalance.out (Rebalance.process_file lib p w)
      = Rebalance.out w ++ lines ++ [Rebalance.ErrorProcessing p e]
      ∧ Forall (λ l, ∃ wid cur tgt, l = Rebalance.AmmoChange wid cur tgt) lines.
Proof.
  run_body.
  destruct (Rebalance.disk w !! p) as [text|]; simpl;
    [|intros [= <-]; split; [done|]; by exists []].
  destruct (Rebalance.json_load lib text) as [data|]; simpl;
    [|intros [= <-]; split; [done|]; by exists []].
  destruct (Rebalance.py_contains "weapons" data) as [e'|[]]; simpl;
    [intros [= <-]; split; [done|]; by exists [] | | done].
  destruct (Rebalance.py_getitem data "weapons") as [e'|weapons]; simpl;
    [intros [= <-]; split; [done|]; by exists []|].
  destruct (Rebalance.py_iter weapons) as [e'|items]; simpl;
    [intros [= <-]; split; [done|]; by exists []|].
  assert (∀ its ls r, Rebalance.rebalance_weapons (Rebalance.float_eq_int lib) its
                      = (ls, r) →
            Forall (λ l, ∃ wid cur tgt, l = Rebalance.AmmoChange wid cur tgt) ls)
    as Hlines.
  { induction its as [|it its IH]; simpl; intros ls r.
    - intros [= <- <-]. constructor.
    - destruct (Rebalance.rebalance_weapon (Rebalance.float_eq_int lib) it)
        as [e'|[it' line]] eqn:Hit; [intros [= <- <-]; constructor|].
      destruct (Rebalance.rebalance_weapons (Rebalance.float_eq_int lib) its)
        as [ls' r'] eqn:Hits.
      intros [= <- <-]. apply Forall_app. split; [|by eapply IH].
      destruct line as [l|]; simpl; [|constructor].
      apply Forall_singleton. revert Hit.
      unfold Rebalance.rebalance_weapon.
      destruct (Rebalance.py_getitem it "weapon_id") as [?|wid]; [done|].
      destruct it; try done. destruct wid; try done.
      case_match; intros [= <- <-]. eauto. }
  destruct (Rebalance.rebalance_weapons (Rebalance.float_eq_int lib) items)
    as [lines [e'|[items' []]]] eqn:Hloop; simpl; [|done..].
  intros [= <-]. split; [done|]. exists lines. split; [by rewrite app_assoc|].
  by eapply Hlines.
Qed.

(** X17: A pass touches no other file, and neither creates nor removes the file
    it is given. *)
Theorem process_file_touches_one_file (p q : string)
    (w : Rebalance.World (Rebalance.pyfloat lib)) :
  (q ≠ p → Rebalance.disk (Rebalance.process_file lib p w) !! q
           = Rebalance.disk w !! q)
  ∧ (is_Some (Rebalance.disk (Rebalance.process_file lib p w) !! q)
     ↔ is_Some (Rebalance.disk w !! q)).
Proof.
  split; [apply process_file_frame | apply process_file_keeps].
Qed.

(** X18: A second pass over a file writes nothing, provided the library reads
    back the text the first pass left. *)
Theorem process_file_idempotent (p : string)
    (w : Rebalance.World (Rebalance.pyfloat lib)) :
  (∀ t, Rebalance.disk (Rebalance.process_file lib p w) !! p = Some t →
        Rebalance.reads_back lib t) →
  Rebalance.disk (Rebalance.process_file lib p (Rebalance.process_file lib p w))
  = Rebalance.disk (Rebalance.process_file lib p w).
Proof.
  intros Hrb. by apply (process_file_settles p w Hrb).
Qed.

(** X19: What a pass does to a unit file whose [weapons] is a list on which the
    loop does not raise: when no weapon's ammunition differs from its
    target the world is exactly as before, nothing written and nothing
    printed; otherwise the file is written once, with the weapons the loop
    produced under [weapons] and every other key, and the order of the
    keys, as they were. *)
Theorem process_file_result (p text : string)
    (w : Rebalance.World (Rebalance.pyfloat lib))
    (d : list (string * Rebalance.PyVal (Rebalance.pyfloat lib)))
    (items items' : list (Rebalance.PyVal (Rebalance.pyfloat lib)))
    (lines : list Rebalance.Line) (updated : bool) :
  Rebalance.disk w !! p = Some text →
  Rebalance.json_load lib text = Some (Rebalance.PyDict d) →
  Rebalance.assoc "weapons" d = Some (Rebalance.PyList items) →
  Rebalance.rebalance_weapons (Rebalance.float_eq_int lib) items
  = (lines, inr (items', updated)) →
  (updated = false → Rebalance.process_file lib p w = w)
  ∧ (updated = true →
     ∃ d',
       Rebalance.process_file lib p w
       = Rebalance.mkWorld
           (<[p := Rebalance.json_dump lib (Rebalance.PyDict d')]> (Rebalance.disk w))
           (Rebalance.out w ++ lines ++ [Rebalance.Updated p])
       ∧ d'.*1 = d.*1
       ∧ Rebalance.assoc "weapons" d' = Some (Rebalance.PyList items')
       ∧ (∀ k, k ≠ "weapons" → Rebalance.assoc k d' = Rebalance.assoc k d)
       ∧ length items' = length items
       ∧ lines ≠ []).
Proof.
  intros Hp Hload Hw Hloop.
  destruct (rebalance_weapons_again _ _ _ _ _ Hloop) as (_ & Hlen & Hsame & Hupd).
  run_body. rewrite Hp, Hload. simpl. rewrite Hw. simpl. rewrite Hloop.
  split.
  - intros ->. destruct (Hsame eq_refl) as [_ ->]. simpl.
    rewrite (right_id_L [] (++)). by destruct w.
  - intros ->. simpl. eexists. split_and!.
    + by rewrite <- app_assoc.
    + apply assoc_set_keys. by rewrite Hw.
    + apply assoc_set_eq.
    + intros k Hk. by apply assoc_set_ne.
    + done.
    + by apply Hupd.
Qed.

End RebalanceFile.

(** ** The whole run *)

Section RebalanceMain.
Context (lib : Rebalance.JsonLib).

Lemma main_loop_count (l : list string) (c : nat)
    (w : Rebalance.World (Rebalance.pyfloat lib)) :
  (Rebalance.main_loop lib l c w).1 = (c + length l)%nat.
Proof.
  revert c w. induction l as [|p l IH]; intros c w; simpl; [lia|].
  rewrite IH. lia.
Qed.

Lemma main_loop_frame (l : list string) (c : nat)
    (w : Rebalance.World (Rebalance.pyfloat lib)) (q : string) :
  q ∉ l →
  Rebalance.disk (Rebalance.main_loop lib l c w).2 !! q = Rebalance.disk w !! q.
Proof.
  revert c w. induction l as [|p l IH]; intros c w Hq; simpl; [done|].
  apply not_elem_of_cons in Hq as [Hne Hq].
  rewrite IH by done. by rewrite process_file_frame.
Qed.

Lemma main_loop_keeps (l : list string) (c : nat)
    (w : Rebalance.World (Rebalance.pyfloat lib)) (q : string) :
  is_Some (Rebalance.disk (Rebalance.main_loop lib l c w).2 !! q)
  ↔ is_Some (Rebalance.disk w !! q).
Proof.
  revert c w. induction l as [|p l IH]; intros c w; simpl; [done|].
  rewrite IH. by rewrite process_file_keeps.
Qed.

Lemma main_loop_settles (l : list string) (c : nat)
    (w : Rebalance.World (Rebalance.pyfloat lib)) :
  (∀ p t, Rebalance.disk (Rebalance.main_loop lib l c w).2 !! p = Some t →
          Rebalance.reads_back lib t) →
  ∀ p, p ∈ l →
    Rebalance.settled_text lib (Rebalance.disk (Rebalance.main_loop lib l c w).2 !! p).
Proof.
  revert c w. induction l as [|p l IH]; intros c w Hrb q Hq; simpl in *.
  - by apply elem_of_nil in Hq.
  - destruct (decide (q ∈ l)) as [Hin|Hnin]; [by apply IH|].
    apply elem_of_cons in Hq as [->|?]; [|done].
    rewrite main_loop_frame by done.
    apply process_file_settles. intros t Ht. apply (Hrb p).
    by rewrite main_loop_frame.
Qed.

Lemma main_loop_quiet (l : list string) (c : nat)
    (w : Rebalance.World (Rebalance.pyfloat lib)) :
  (∀ p, p ∈ l → Rebalance.settled_text lib (Rebalance.disk w !! p)) →
  Rebalance.disk (Rebalance.main_loop lib l c w).2 = Rebalance.disk w.
Proof.
  revert c w. induction l as [|p l IH]; intros c w Hl; simpl; [done|].
  assert (Rebalance.disk
            (Rebalance.process_file lib p (Rebalance.print lib (Rebalance.Processing p) w))
          = Rebalance.disk w) as Hp.
  { assert (p ∈ p :: l) as Hin by by left.
    exact (Hl p Hin p (Rebalance.print lib (Rebalance.Processing p) w) eq_refl). }
  rewrite IH; [done|]. intros q Hq. rewrite Hp. apply Hl. by right.
Qed.

Lemma walk_json_spec (top p : string) (fs : gmap string string) :
  p ∈ Rebalance.walk_json top fs ↔
    is_Some (fs !! p) ∧ String.prefix (top +:+ "\") p = true
    ∧ endswith p ".json" = true.
Proof.
  unfold Rebalance.walk_json. rewrite list_elem_of_filter, list_elem_of_fmap.
  split.
  - intros [[? ?] [[k t] [-> Hin%elem_of_map_to_list]]]. simpl. eauto.
  - intros [[t Ht] [? ?]]. split; [done|].
    exists (p, t). split; [done|]. by apply elem_of_map_to_list.
Qed.

Lemma main_unfold (w : Rebalance.World (Rebalance.pyfloat lib)) :
  let l := Rebalance.walk_json Rebalance.UNITS_DIR (Rebalance.disk w) in
  let w1 := (Rebalance.main_loop lib l 0
               (Rebalance.print lib Rebalance.Starting w)).2 in
  Rebalance.main lib w
  = Rebalance.print lib (Rebalance.FinishedProcessing (length l)) w1.
Proof.
  simpl. unfold Rebalance.main. simpl.
  pose proof (main_loop_count
                (Rebalance.walk_json Rebalance.UNITS_DIR (Rebalance.disk w)) 0
                (Rebalance.print lib Rebalance.Starting w)) as Hc.
  destruct (Rebalance.main_loop lib _ 0 _) as [c w1]. simpl in *. by rewrite Hc.
Qed.

(** X20: A second run of the tool right after a first one writes nothing,
    provided the library reads back every file as the first run left it. *)
Theorem main_idempotent (w : Rebalance.World (Rebalance.pyfloat lib)) :
  (∀ p t, Rebalance.disk (Rebalance.main lib w) !! p = Some t → Rebalance.reads_back lib t) →
  Rebalance.disk (Rebalance.main lib (Rebalance.main lib w))
  = Rebalance.disk (Rebalance.main lib w).
Proof.
  intros Hrb. rewrite (main_unfold (Rebalance.main lib w)). simpl.
  rewrite main_loop_quiet; [done|]. simpl.
  intros p Hp. revert Hrb Hp. rewrite (main_unfold w). simpl.
  intros Hrb (Hs & Hpre & Hsuf)%walk_json_spec.
  apply main_loop_settles; [done|].
  apply walk_json_spec. split; [|done]. by apply main_loop_keeps in Hs.
Qed.

(** X21: The run counts every [.json] file below the units directory once,
    whether its processing raised or not, and touches nothing else. *)
Theorem main_counts_and_frames (w : Rebalance.World (Rebalance.pyfloat lib))
    (q : string) :
  (∃ lines,
     Rebalance.out (Rebalance.main lib w)
     = lines ++ [Rebalance.FinishedProcessing
                   (length (Rebalance.walk_json Rebalance.UNITS_DIR
                              (Rebalance.disk w)))])
  ∧ (q ∉ Rebalance.walk_json Rebalance.UNITS_DIR (Rebalance.disk w) →
     Rebalance.disk (Rebalance.main lib w) !! q = Rebalance.disk w !! q)
  ∧ (is_Some (Rebalance.disk (Rebalance.main lib w) !! q)
     ↔ is_Some (Rebalance.disk w !! q)).
Proof.
  rewrite main_unfold. simpl. split_and!.
  - by eexists.
  - intros Hq. by rewrite main_loop_frame.
  - by rewrite main_loop_keeps.
Qed.

End RebalanceMain.


(** ** The loop as a whole, and the demo disk *)

Lemma rebalance_weapon_post_witness :
  let weapon := Rebalance.PyDict [("weapon_id", Rebalance.PyStr "rotary_cannon")] in
  let weapon' :=
    Rebalance.PyDict [("weapon_id", Rebalance.PyStr "rotary_cannon");
                      ("max_ammo", Rebalance.PyInt 20)] in
  ∃ d d' wid,
    weapon = Rebalance.PyDict d ∧ weapon' = Rebalance.PyDict d'
    ∧ Rebalance.assoc "weapon_id" d = Some (Rebalance.PyStr wid)
    ∧ (∀ k, k ≠ "max_ammo" → Rebalance.assoc k d' = Rebalance.assoc k d)
    ∧ Rebalance.py_ne_int Z.eqb (Rebalance.ammo_of d') (Rebalance.target_of wid)
      = false
    ∧ (is_Some (Some (Rebalance.AmmoChange (F := Z) "rotary_cannon" (Rebalance.PyInt 999) 20)) ↔
       Rebalance.py_ne_int Z.eqb (Rebalance.ammo_of d) (Rebalance.target_of wid)
       = true)
    ∧ (Some (Rebalance.AmmoChange (F := Z) "rotary_cannon" (Rebalance.PyInt 999) 20) = None →
       weapon' = weapon)
    ∧ Rebalance.rebalance_weapon Z.eqb weapon' = inr (weapon', None).
Proof.
  apply (rebalance_weapon_post Z.eqb
           (Rebalance.PyDict [("weapon_id", Rebalance.PyStr "rotary_cannon")])).
  vm_compute. reflexivity.
Defined.

(** X15: When the loop over the weapons comes to its end, each weapon is what
    the body made of it, in the same order; [updated] is set exactly when
    a line was printed; when it is not set the weapons are as they were;
    and a second loop over the result changes and prints nothing. *)
Theorem rebalance_loop_post {F : Type} (eq_int : F → Z → bool)
    (items items' : list (Rebalance.PyVal F))
    (lines : list Rebalance.Line) (updated : bool) :
  Rebalance.rebalance_weapons eq_int items = (lines, inr (items', updated)) →
  Forall2 (λ it it', ∃ line, Rebalance.rebalance_weapon eq_int it = inr (it', line))
          items items'
  ∧ (updated = true ↔ lines ≠ [])
  ∧ (updated = false → items' = items)
  ∧ Rebalance.rebalance_weapons eq_int items' = ([], inr (items', false)).
Proof.
  intros Hloop.
  destruct (rebalance_weapons_again eq_int _ _ _ _ Hloop) as (Hagain & _ & Hsame & Hupd).
  split_and!; [| |intros Hu; by destruct (Hsame Hu)|done].
  - revert items' lines updated Hloop Hagain Hsame Hupd.
    induction items as [|it items IH]; intros items' lines updated; simpl.
    + intros [= <- <- <-] _ _ _. constructor.
    + destruct (Rebalance.rebalance_weapon eq_int it) as [e|[it' line]] eqn:Hit; [done|].
      destruct (Rebalance.rebalance_weapons eq_int items)
        as [ls [e|[rest' upd]]] eqn:Hrest; [done|].
      intros [= <- <- <-] _ _ _. constructor; [by eexists|].
      destruct (rebalance_weapons_again eq_int _ _ _ _ Hrest) as (? & _ & ? & ?).
      by eapply IH.
  - split; [done|]. intros Hl. destruct updated; [done|].
    by destruct (Hsame eq_refl) as [_ ->].
Qed.

Lemma rebalance_loop_post_witness :
  let items :=
    [Rebalance.PyDict [("weapon_id", Rebalance.PyStr "Heavy_Cannon");
                       ("max_ammo", Rebalance.PyInt 40)];
     Rebalance.PyDict [("weapon_id", Rebalance.PyStr "bolter");
                       ("max_ammo", Rebalance.PyFloat 20)]] in
  let items' :=
    [Rebalance.PyDict [("weapon_id", Rebalance.PyStr "Heavy_Cannon");
                       ("max_ammo", Rebalance.PyInt 10)];
     Rebalance.PyDict [("weapon_id", Rebalance.PyStr "bolter");
                       ("max_ammo", Rebalance.PyFloat 20)]] in
  Forall2 (λ it it', ∃ line, Rebalance.rebalance_weapon Z.eqb it = inr (it', line))
          items items'
  ∧ (true = true ↔
     [Rebalance.AmmoChange (F := Z) "Heavy_Cannon" (Rebalance.PyInt 40) 10] ≠ [])
  ∧ (true = false → items' = items)
  ∧ Rebalance.rebalance_weapons Z.eqb items' = ([], inr (items', false)).
Proof.
  apply (rebalance_loop_post Z.eqb
           [Rebalance.PyDict [("weapon_id", Rebalance.PyStr "Heavy_Cannon");
                              ("max_ammo", Rebalance.PyInt 40)];
            Rebalance.PyDict [("weapon_id", Rebalance.PyStr "bolter");
                              ("max_ammo", Rebalance.PyFloat 20)]]).
  vm_compute. reflexivity.
Defined.

Lemma demo_reads_back (t : string) :
  t ≠ "?" → Rebalance.reads_back RebalanceDemo.lib t.
Proof.
  intros Ht v Hv. simpl in Hv. unfold RebalanceDemo.dump_table in Hv.
  simpl in Hv. case_decide as Hd; simpl in Hv; [|congruence].
  subst. vm_compute. reflexivity.
Qed.

Lemma process_file_error_leaves_disk_witness :
  let p := RebalanceDemo.broken_path in
  let w := RebalanceDemo.world in
  Rebalance.disk (Rebalance.process_file RebalanceDemo.lib p w) = Rebalance.disk w
  ∧ ∃ lines,
      Rebalance.out (Rebalance.process_file RebalanceDemo.lib p w)
      = Rebalance.out w ++ lines ++ [Rebalance.ErrorProcessing p Rebalance.KeyError]
      ∧ Forall (λ l, ∃ wid cur tgt, l = Rebalance.AmmoChange wid cur tgt) lines.
Proof.
  apply (process_file_error_leaves_disk RebalanceDemo.lib RebalanceDemo.broken_path
           RebalanceDemo.world Rebalance.KeyError).
  vm_compute. reflexivity.
Defined.

Lemma process_file_idempotent_witness :
  let p := RebalanceDemo.tank_path in
  let w := RebalanceDemo.world in
  Rebalance.disk (Rebalance.process_file RebalanceDemo.lib p
                    (Rebalance.process_file RebalanceDemo.lib p w))
  = Rebalance.disk (Rebalance.process_file RebalanceDemo.lib p w).
Proof.
  apply (process_file_idempotent RebalanceDemo.lib RebalanceDemo.tank_path
           RebalanceDemo.world).
  intros t Ht. apply demo_reads_back. vm_compute in Ht. by injection Ht as <-.
Defined.

Lemma process_file_result_witness :
  let p := RebalanceDemo.tank_path in
  let w := RebalanceDemo.world in
  (true = false → Rebalance.process_file RebalanceDemo.lib p w = w)
  ∧ (true = true →
     ∃ d',
       Rebalance.process_file RebalanceDemo.lib p w
       = Rebalance.mkWorld
           (<[p := Rebalance.json_dump RebalanceDemo.lib (Rebalance.PyDict d')]>
              (Rebalance.disk w))
           (Rebalance.out w ++ RebalanceDemo.tank_lines ++ [Rebalance.Updated p])
       ∧ d'.*1 = RebalanceDemo.tank_fields.*1
       ∧ Rebalance.assoc "weapons" d'
         = Some (Rebalance.PyList RebalanceDemo.tank_items_done)
       ∧ (∀ k, k ≠ "weapons" →
            Rebalance.assoc k d' = Rebalance.assoc k RebalanceDemo.tank_fields)
       ∧ length RebalanceDemo.tank_items_done = length RebalanceDemo.tank_items
       ∧ RebalanceDemo.tank_lines ≠ []).
Proof.
  apply (process_file_result RebalanceDemo.lib RebalanceDemo.tank_path "tank v1"
           RebalanceDemo.world RebalanceDemo.tank_fields RebalanceDemo.tank_items
           RebalanceDemo.tank_items_done RebalanceDemo.tank_lines true).
  - vm_compute. reflexivity.
  - vm_compute. reflexivity.
  - vm_compute. reflexivity.
  - vm_compute. reflexivity.
Defined.

Lemma main_idempotent_witness :
  Rebalance.disk (Rebalance.main RebalanceDemo.lib
                    (Rebalance.main RebalanceDemo.lib RebalanceDemo.world))
  = Rebalance.disk (Rebalance.main RebalanceDemo.lib RebalanceDemo.world).
Proof.
  apply (main_idempotent RebalanceDemo.lib RebalanceDemo.world).
  intros p t Ht. apply demo_reads_back.
  apply elem_of_map_to_list in Ht. vm_compute in Ht.
  repeat (apply elem_of_cons in Ht as [[= -> ->] | Ht]; [discriminate|]).
  by apply elem_of_nil in Ht.
Defined.
